(** * BlockBoard message wall: the controller of [src/App.tsx]

    A shallow embedding of the React component [App]: its utility
    functions, its state cells ([useState] / [useRef]), the toast timer,
    and the asynchronous handlers [connectWallet], [getOwner],
    [getAllMessages] and [postMessage].

    - JavaScript strings are sequences of UTF-16 code units.
    - The wallet provider and the contract are an environment [Env]; each
      request yields a promise that settles, after some latency, with a
      value or with a rejection.
    - A handler is a computation in the monad [M]: it threads the [World]
      (state cells, clock, pending timers, trace of effects) and may raise
      a JavaScript exception.  An [await] lets the clock run up to the
      settling time of the promise, and the timers that fall due in the
      meantime fire.  One handler activation is followed from its call to
      its completion; activations are not interleaved with each other. *)

From Stdlib Require Import ZArith NArith PArith List Bool Lia String Ascii.
From Stdlib Require Import DecimalString.
From Equations Require Import Equations.
Import ListNotations.

Set Implicit Arguments.

(* ===================================================================== *)
(** * JavaScript values and built-ins *)
(* ===================================================================== *)

Module JS.

(** A string is a list of UTF-16 code units. *)
Definition code_unit := N.
Definition jsstring := list code_unit.

Definition jsstring_eq_dec : forall s t : jsstring, {s = t} + {s <> t} :=
  list_eq_dec N.eq_dec.

(** A string literal of the source (ASCII only). *)
Definition lit (s : string) : jsstring :=
  map N_of_ascii (list_ascii_of_string s).

(** [!s] on a string: only the empty string is falsy. *)
Definition falsy (s : jsstring) : bool :=
  match s with [] => true | _ :: _ => false end.

(** WhiteSpace and LineTerminator code points of ECMAScript. *)
Definition isWhiteSpace (c : code_unit) : bool :=
  ((9 <=? c) && (c <=? 13)            (* TAB LF VT FF CR *)
   || (c =? 32) || (c =? 160)         (* SP NBSP *)
   || (c =? 5760)                     (* U+1680 *)
   || ((8192 <=? c) && (c <=? 8202))  (* U+2000 .. U+200A *)
   || (c =? 8232) || (c =? 8233)      (* LS PS *)
   || (c =? 8239) || (c =? 8287)      (* U+202F U+205F *)
   || (c =? 12288) || (c =? 65279))%N (* U+3000 U+FEFF *).

Fixpoint trimStart (s : jsstring) : jsstring :=
  match s with
  | [] => []
  | c :: s' => if isWhiteSpace c then trimStart s' else s
  end.

Definition trimEnd (s : jsstring) : jsstring := rev (trimStart (rev s)).

(** [String.prototype.trim]. *)
Definition trim (s : jsstring) : jsstring := trimEnd (trimStart s).

(** [String.prototype.slice(start, end)]; [None] is an omitted [end]. *)
Definition slice (s : jsstring) (start : Z) (end_ : option Z) : jsstring :=
  let len := Z.of_nat (List.length s) in
  let from := if (start <? 0)%Z then Z.max (len + start) 0 else Z.min start len in
  let e := match end_ with None => len | Some e => e end in
  let to := if (e <? 0)%Z then Z.max (len + e) 0 else Z.min e len in
  firstn (Z.to_nat (Z.max (to - from) 0)) (skipn (Z.to_nat from) s).

(** The Numbers that occur here: integers, and NaN. *)
Inductive Number := NaN | Int (z : Z).

(** Value of a code unit as a digit in radix 16. *)
Definition hexDigit (c : code_unit) : option Z :=
  if ((48 <=? c) && (c <=? 57))%N then Some (Z.of_N c - 48)%Z
  else if ((97 <=? c) && (c <=? 102))%N then Some (Z.of_N c - 87)%Z
  else if ((65 <=? c) && (c <=? 70))%N then Some (Z.of_N c - 55)%Z
  else None.

(** Longest prefix of radix-16 digits, as (number of digits, value). *)
Fixpoint hexPrefix (s : jsstring) (n : nat) (acc : Z) : nat * Z :=
  match s with
  | [] => (n, acc)
  | c :: s' =>
      match hexDigit c with
      | Some d => hexPrefix s' (S n) (16 * acc + d)%Z
      | None => (n, acc)
      end
  end.

(** [parseInt(s, 16)]: leading white space, a sign, a [0x] prefix, then
    the longest run of hexadecimal digits; NaN when that run is empty. *)
Definition parseInt16 (s : jsstring) : Number :=
  let s1 := trimStart s in
  let '(sign, s2) :=
    match s1 with
    | 45%N :: r => ((-1)%Z, r)        (* - *)
    | 43%N :: r => (1%Z, r)           (* + *)
    | _ => (1%Z, s1)
    end in
  let s3 :=
    match s2 with
    | 48%N :: 120%N :: r => r         (* 0x *)
    | 48%N :: 88%N :: r => r          (* 0X *)
    | _ => s2
    end in
  match hexPrefix s3 0 0 with
  | (O, _) => NaN
  | (_, v) => Int (sign * v)
  end.

(** ToInt32: NaN goes to 0, an integer wraps to 32 bits, signed. *)
Definition wrap32 (z : Z) : Z :=
  let m := (z mod 2 ^ 32)%Z in
  if (m <? 2 ^ 31)%Z then m else (m - 2 ^ 32)%Z.

Definition ToInt32 (x : Number) : Z :=
  match x with NaN => 0%Z | Int z => wrap32 z end.

(** [x >> n] and [a & b] on 32-bit operands. *)
Definition sar (x : Number) (n : Z) : Z :=
  Z.shiftr (ToInt32 x) (n mod 32).

Definition band (a b : Z) : Z := Z.land (wrap32 a) (wrap32 b).

(** An integer inside a template literal. *)
Definition numToString (z : Z) : jsstring :=
  lit (NilZero.string_of_int (Z.to_int z)).

End JS.

Import JS.

(* ===================================================================== *)
(** * Utility functions *)
(* ===================================================================== *)

Definition shortenAddress (address : jsstring) : jsstring :=
  if falsy address then lit ""
  else slice address 0 (Some 6%Z) ++ lit "..." ++ slice address (-4) None.

Definition generateAvatarGradient (address : jsstring) : jsstring :=
  if falsy address then lit "linear-gradient(135deg, #ccc, #999)"
  else
    let hash := parseInt16 (slice address 2 (Some 10%Z)) in
    let r := band (sar hash 16) 255 in
    let g := band (sar hash 8) 255 in
    let b := band (ToInt32 hash) 255 in
    lit "linear-gradient(135deg, rgb(" ++ numToString r ++ lit ","
      ++ numToString g ++ lit "," ++ numToString b ++ lit "), rgb("
      ++ numToString (255 - r) ++ lit "," ++ numToString (255 - g) ++ lit ","
      ++ numToString (255 - b) ++ lit "))".

(* ===================================================================== *)
(** * Data model *)
(* ===================================================================== *)

(** [interface MessageItem]; the [Date] is its time value in milliseconds. *)
Record MessageItem := {
  sender : jsstring;
  text : jsstring;
  timestamp : Z
}.

(** [ToastState['type']]: ['success' | 'error' | 'loading' | '']. *)
Inductive ToastType := success | error | loading | notype.

Record ToastState := {
  show : bool;
  type : ToastType;
  msg : jsstring
}.

Inductive FilterType := all | mine.

(** The [useState] cells of [App]. *)
Record AppState := {
  currentAccount : option jsstring;
  owner : option jsstring;
  message : jsstring;
  isSubmitting : bool;
  isLoadingMessages : bool;
  allMessages : list MessageItem;
  filterType : FilterType;
  toast : ToastState
}.

Definition setCurrentAccount (v : option jsstring) (a : AppState) : AppState :=
  {| currentAccount := v; owner := owner a; message := message a;
     isSubmitting := isSubmitting a; isLoadingMessages := isLoadingMessages a;
     allMessages := allMessages a; filterType := filterType a; toast := toast a |}.

Definition setOwner (v : option jsstring) (a : AppState) : AppState :=
  {| currentAccount := currentAccount a; owner := v; message := message a;
     isSubmitting := isSubmitting a; isLoadingMessages := isLoadingMessages a;
     allMessages := allMessages a; filterType := filterType a; toast := toast a |}.

Definition setMessage (v : jsstring) (a : AppState) : AppState :=
  {| currentAccount := currentAccount a; owner := owner a; message := v;
     isSubmitting := isSubmitting a; isLoadingMessages := isLoadingMessages a;
     allMessages := allMessages a; filterType := filterType a; toast := toast a |}.

Definition setIsSubmitting (v : bool) (a : AppState) : AppState :=
  {| currentAccount := currentAccount a; owner := owner a; message := message a;
     isSubmitting := v; isLoadingMessages := isLoadingMessages a;
     allMessages := allMessages a; filterType := filterType a; toast := toast a |}.

Definition setIsLoadingMessages (v : bool) (a : AppState) : AppState :=
  {| currentAccount := currentAccount a; owner := owner a; message := message a;
     isSubmitting := isSubmitting a; isLoadingMessages := v;
     allMessages := allMessages a; filterType := filterType a; toast := toast a |}.

Definition setAllMessages (v : list MessageItem) (a : AppState) : AppState :=
  {| currentAccount := currentAccount a; owner := owner a; message := message a;
     isSubmitting := isSubmitting a; isLoadingMessages := isLoadingMessages a;
     allMessages := v; filterType := filterType a; toast := toast a |}.

Definition setFilterType (v : FilterType) (a : AppState) : AppState :=
  {| currentAccount := currentAccount a; owner := owner a; message := message a;
     isSubmitting := isSubmitting a; isLoadingMessages := isLoadingMessages a;
     allMessages := allMessages a; filterType := v; toast := toast a |}.

(** [setToast] takes an updater, as in [setToast((prev) => ...)]. *)
Definition setToast (f : ToastState -> ToastState) (a : AppState) : AppState :=
  {| currentAccount := currentAccount a; owner := owner a; message := message a;
     isSubmitting := isSubmitting a; isLoadingMessages := isLoadingMessages a;
     allMessages := allMessages a; filterType := filterType a;
     toast := f (toast a) |}.

(** The initial values given to [useState]. *)
Definition initialState : AppState :=
  {| currentAccount := None; owner := None; message := lit "";
     isSubmitting := false; isLoadingMessages := false; allMessages := [];
     filterType := all;
     toast := {| show := false; type := notype; msg := lit "" |} |}.

(* ===================================================================== *)
(** * The outside: wallet provider and contract *)
(* ===================================================================== *)

(** A rejection reason (an [Error] object), identified by a code. *)
Inductive JsError := Err (code : Z).

Inductive Settlement (A : Type) :=
| Fulfilled (a : A)
| Rejected (e : JsError).
Arguments Fulfilled {A} a.
Arguments Rejected {A} e.

(** What the outside answers to one request: how long it takes (ms) and
    how the promise settles. *)
Record Reply (A : Type) := {
  latency : N;
  outcome : Settlement A
}.

(** A promise of the program: the instant at which it settles, and how. *)
Record Promise (A : Type) := {
  settles : N;
  settlement : Settlement A
}.

(** One entry as [contract.Messages(i)] returns it: [timestamp] is a
    bigint of seconds. *)
Record RawMessage := {
  msg_sender : jsstring;
  msg_text : jsstring;
  msg_timestamp : Z
}.

Definition Signer := jsstring.
Definition TransactionResponse := N.

(** The environment.  Every request is answered as a function of the
    instant at which it is sent, so that the chain may change over time. *)
Record Env := {
  ethereum : bool;  (* typeof window.ethereum !== 'undefined' *)
  eth_requestAccounts : N -> Reply (list jsstring);
  eth_accounts : N -> Reply (list jsstring);
  contract_owner : N -> Reply jsstring;
  contract_getMessagesCount : N -> Reply Z;
  contract_Messages : N -> Z -> Reply RawMessage;
  provider_getSigner : N -> Reply Signer;
  contract_postMessage : N -> Signer -> jsstring -> Reply TransactionResponse;
  tx_wait : N -> TransactionResponse -> Reply unit
}.

(* ===================================================================== *)
(** * The world threaded by the handlers *)
(* ===================================================================== *)

Inductive Request :=
| Req_eth_requestAccounts
| Req_eth_accounts
| Req_owner
| Req_getMessagesCount
| Req_Messages (i : Z)
| Req_getSigner
| Req_postMessage (text : jsstring)
| Req_wait (tx : TransactionResponse).

Inductive Handler :=
| H_connectWallet | H_checkIfWalletIsConnected | H_getOwner
| H_getAllMessages | H_postMessage | H_copyAddress.

(** Observable effects, and the activation of a handler. *)
Inductive Event :=
| Call (h : Handler)
| Send (r : Request)
| Toast (ty : ToastType) (m : jsstring)
| ConsoleError (e : JsError)
| ClipboardWrite (s : jsstring).

(** [trace] is newest first.  [timers] are the pending [setTimeout]s as
    (handle, due instant); the only callback the component ever registers
    is the one of [showToast], which hides the toast. *)
Record World := {
  app : AppState;
  toastTimeoutRef : option positive;
  now : N;
  timers : list (positive * N);
  nextHandle : positive;
  trace : list Event
}.

Definition initialWorld : World :=
  {| app := initialState; toastTimeoutRef := None; now := 0;
     timers := []; nextHandle := 1; trace := [] |}.

(** The callback of [showToast]'s timer:
    [setToast((prev) => ({ ...prev, show: false }))]. *)
Definition hideToast : AppState -> AppState :=
  setToast (fun prev => {| show := false; type := type prev; msg := msg prev |}).

Definition isDue (t : N) (tm : positive * N) : bool := (snd tm <=? t)%N.

(** Let the clock run to instant [t] (it never runs backwards): every
    timer due by then fires and leaves the pending list. *)
Definition runUntil (t : N) (w : World) : World :=
  {| app := fold_left (fun a _ => hideToast a) (filter (isDue t) (timers w)) (app w);
     toastTimeoutRef := toastTimeoutRef w;
     now := N.max (now w) t;
     timers := filter (fun tm => negb (isDue t tm)) (timers w);
     nextHandle := nextHandle w;
     trace := trace w |}.

(** Time passes for [dt] milliseconds with no handler running. *)
Definition elapse (dt : N) (w : World) : World := runUntil (now w + dt) w.

(* ===================================================================== *)
(** * The monad of handlers: state and exceptions *)
(* ===================================================================== *)

Inductive Completion (A : Type) :=
| Normal (a : A)
| Throw (e : JsError).
Arguments Normal {A} a.
Arguments Throw {A} e.

Definition M (A : Type) := World -> Completion A * World.

Definition ret {A} (a : A) : M A := fun w => (Normal a, w).

Definition bind {A B} (c : M A) (k : A -> M B) : M B :=
  fun w =>
    match c w with
    | (Normal a, w') => k a w'
    | (Throw e, w') => (Throw e, w')
    end.

Declare Scope js_scope.
Delimit Scope js_scope with js.
Notation "x <- c ;; k" := (bind c (fun x => k))
  (at level 100, c at next level, right associativity) : js_scope.
Notation "c ;; k" := (bind c (fun _ => k))
  (at level 100, right associativity) : js_scope.
Open Scope js_scope.

(** [try { body } catch (e) { handler e } finally { cleanup }]. *)
Definition try_catch_finally {A} (body : M A) (handler : JsError -> M A)
    (cleanup : M unit) : M A :=
  fun w =>
    let '(r, w1) :=
      match body w with
      | (Normal a, w') => (Normal a, w')
      | (Throw e, w') => handler e w'
      end in
    match cleanup w1 with
    | (Normal _, w2) => (r, w2)
    | (Throw e, w2) => (Throw e, w2)
    end.

Definition try_catch {A} (body : M A) (handler : JsError -> M A) : M A :=
  try_catch_finally body handler (ret tt).

Definition getNow : M N := fun w => (Normal (now w), w).

Definition getState : M AppState := fun w => (Normal (app w), w).

(** The world after a state setter of [useState] has run. *)
Definition withApp (f : AppState -> AppState) (w : World) : World :=
  {| app := f (app w); toastTimeoutRef := toastTimeoutRef w; now := now w;
     timers := timers w; nextHandle := nextHandle w; trace := trace w |}.

(** The world with one more event recorded. *)
Definition logged (e : Event) (w : World) : World :=
  {| app := app w; toastTimeoutRef := toastTimeoutRef w; now := now w;
     timers := timers w; nextHandle := nextHandle w; trace := e :: trace w |}.

Definition setState (f : AppState -> AppState) : M unit :=
  fun w => (Normal tt, withApp f w).

Definition emit (e : Event) : M unit :=
  fun w => (Normal tt, logged e w).

Definition readRef : M (option positive) :=
  fun w => (Normal (toastTimeoutRef w), w).

Definition writeRef (h : option positive) : M unit :=
  fun w =>
    (Normal tt,
     {| app := app w; toastTimeoutRef := h; now := now w;
        timers := timers w; nextHandle := nextHandle w; trace := trace w |}).

(** [setTimeout(cb, delay)]: a fresh handle, positive as the platform
    guarantees. *)
Definition setTimeout (delay : N) : M positive :=
  fun w =>
    (Normal (nextHandle w),
     {| app := app w; toastTimeoutRef := toastTimeoutRef w; now := now w;
        timers := timers w ++ [(nextHandle w, (now w + delay)%N)];
        nextHandle := Pos.succ (nextHandle w); trace := trace w |}).

(** [clearTimeout(h)]: nothing happens when [h] is not pending. *)
Definition clearTimeout (h : positive) : M unit :=
  fun w =>
    (Normal tt,
     {| app := app w; toastTimeoutRef := toastTimeoutRef w; now := now w;
        timers := filter (fun tm => negb (Pos.eqb (fst tm) h)) (timers w);
        nextHandle := nextHandle w; trace := trace w |}).

(** Sending a request: it is recorded, and a promise is returned that
    settles [latency] later. *)
Definition request {A} (r : Request) (ans : N -> Reply A) : M (Promise A) :=
  emit (Send r) ;;
  t <- getNow ;;
  ret {| settles := (t + latency (ans t))%N; settlement := outcome (ans t) |}.

(** [await p]: the handler is suspended until [p] has settled; then it
    goes on with the value, or the rejection is thrown. *)
Definition await {A} (p : Promise A) : M A :=
  fun w =>
    match settlement p with
    | Fulfilled a => (Normal a, runUntil (settles p) w)
    | Rejected e => (Throw e, runUntil (settles p) w)
    end.

(** The earliest rejection among promises; among rejections of the same
    instant, the first of the array. *)
Fixpoint firstRejection {A} (ps : list (Promise A)) : option (N * JsError) :=
  match ps with
  | [] => None
  | p :: ps' =>
      match settlement p, firstRejection ps' with
      | Rejected e, Some (t', e') =>
          if (t' <? settles p)%N then Some (t', e') else Some (settles p, e)
      | Rejected e, None => Some (settles p, e)
      | Fulfilled _, r => r
      end
  end.

Fixpoint fulfilledValues {A} (ps : list (Promise A)) : list A :=
  match ps with
  | [] => []
  | p :: ps' =>
      match settlement p with
      | Fulfilled a => a :: fulfilledValues ps'
      | Rejected _ => fulfilledValues ps'
      end
  end.

(** [Promise.all(ps)]: rejected as soon as one promise is rejected;
    otherwise fulfilled, once all are, with the values in array order. *)
Definition Promise_all {A} (ps : list (Promise A)) : Promise (list A) :=
  match firstRejection ps with
  | Some (t, e) => {| settles := t; settlement := Rejected e |}
  | None =>
      {| settles := fold_right N.max 0%N (map (@settles A) ps);
         settlement := Fulfilled (fulfilledValues ps) |}
  end.

(* ===================================================================== *)
(** * The component [App] *)
(* ===================================================================== *)

Definition Provider := unit.

Section Handlers.

Variable env : Env.

Definition showToast (ty : ToastType) (m : jsstring) : M unit :=
  ref <- readRef ;;
  match ref with
  | Some h => clearTimeout h
  | None => ret tt
  end ;;
  emit (Toast ty m) ;;
  setState (setToast (fun _ => {| show := true; type := ty; msg := m |})) ;;
  h <- setTimeout 3000 ;;
  writeRef (Some h).

Definition copyAddress (addr : jsstring) : M unit :=
  emit (Call H_copyAddress) ;;
  emit (ClipboardWrite addr) ;;
  showToast success (lit "Address copied to clipboard").

Definition getProvider : option Provider :=
  if ethereum env then Some tt else None.

Definition connectWallet : M unit :=
  emit (Call H_connectWallet) ;;
  match getProvider with
  | Some _ =>
      try_catch
        (p <- request Req_eth_requestAccounts (eth_requestAccounts env) ;;
         accounts <- await p ;;
         setState (setCurrentAccount (hd_error accounts)) ;;
         showToast success (lit "Wallet connected successfully"))
        (fun e =>
           emit (ConsoleError e) ;;
           showToast error (lit "Connection rejected"))
  | None => showToast error (lit "Please install MetaMask")
  end.

Definition checkIfWalletIsConnected : M unit :=
  emit (Call H_checkIfWalletIsConnected) ;;
  match getProvider with
  | Some _ =>
      try_catch
        (p <- request Req_eth_accounts (eth_accounts env) ;;
         accounts <- await p ;;
         match accounts with
         | a :: _ => setState (setCurrentAccount (Some a))
         | [] => ret tt
         end)
        (fun e => emit (ConsoleError e))
  | None => ret tt
  end.

Definition getOwner : M unit :=
  emit (Call H_getOwner) ;;
  match getProvider with
  | Some _ =>
      try_catch
        (p <- request Req_owner (contract_owner env) ;;
         ownerAddress <- await p ;;
         setState (setOwner (Some ownerAddress)))
        (fun e => emit (ConsoleError e))
  | None => ret tt
  end.

(** The [map] callback of [getAllMessages]: seconds become the time
    value of a [Date].  The product is the exact one; it is the time
    value of the [Date] as long as that is a valid one (at most 8.64e15
    in absolute value). *)
Definition formatMessage (m : RawMessage) : MessageItem :=
  {| sender := msg_sender m; text := msg_text m;
     timestamp := msg_timestamp m * 1000 |}.

(** [for (let i = count - 1; i >= limit; i--)
       promises.push(contract.Messages(i))], entered at [i].  The loop
    variable is the integer itself, as the Number is up to
    [Number.MAX_SAFE_INTEGER]. *)
Equations? pushMessages (i limit : Z) (promises : list (Promise RawMessage))
  : M (list (Promise RawMessage)) by wf (Z.to_nat (i - limit + 1)) lt :=
  pushMessages i limit promises with Z_lt_le_dec i limit := {
    | left _ => ret promises
    | right _ =>
        p <- request (Req_Messages i) (fun t => contract_Messages env t i) ;;
        pushMessages (i - 1) limit (promises ++ [p]) }.
Proof. lia. Qed.

(** [count] is [Number(await contract.getMessagesCount())]; the Number
    is taken to be the integer itself, which is exact up to
    [Number.MAX_SAFE_INTEGER].  Past that value [Number(count)],
    [count - 1] and [i--] round, and this definition no longer follows
    the source: the statements about it carry the range ([safeCountAt]
    below). *)
Definition getAllMessages : M unit :=
  emit (Call H_getAllMessages) ;;
  match getProvider with
  | Some _ =>
      try_catch_finally
        (setState (setIsLoadingMessages true) ;;
         pc <- request Req_getMessagesCount (contract_getMessagesCount env) ;;
         count <- await pc ;;
         let limit := Z.max 0 (count - 50) in
         promises <- pushMessages (count - 1) limit [] ;;
         results <- await (Promise_all promises) ;;
         let formattedMessages := map formatMessage results in
         setState (setAllMessages formattedMessages))
        (fun e =>
           emit (ConsoleError e) ;;
           showToast error (lit "Failed to fetch messages"))
        (setState (setIsLoadingMessages false))
  | None => ret tt
  end.

(** [message] is the state cell as the handler's closure sees it, read
    once on activation. *)
Definition postMessage : M unit :=
  emit (Call H_postMessage) ;;
  a <- getState ;;
  let message := message a in
  if falsy (trim message) then showToast error (lit "Message cannot be empty")
  else
    match getProvider with
    | Some _ =>
        try_catch_finally
          (setState (setIsSubmitting true) ;;
           ps <- request Req_getSigner (provider_getSigner env) ;;
           signer <- await ps ;;
           ptx <- request (Req_postMessage message)
                    (fun t => contract_postMessage env t signer message) ;;
           tx <- await ptx ;;
           showToast loading
             (lit "Transaction submitted. Waiting for confirmation...") ;;
           pw <- request (Req_wait tx) (fun t => tx_wait env t tx) ;;
           await pw ;;
           setState (setMessage (lit "")) ;;
           getAllMessages ;;
           showToast success (lit "Message posted successfully!"))
          (fun e =>
             emit (ConsoleError e) ;;
             showToast error (lit "Transaction failed. Check console."))
          (setState (setIsSubmitting false))
    | None => ret tt
    end.

(** The listener of ['accountsChanged']. *)
Definition accountsChanged (accounts : list jsstring) : M unit :=
  if ethereum env then setState (setCurrentAccount (hd_error accounts))
  else ret tt.

End Handlers.

(** ** The filtered view *)

Section View.

(** [String.prototype.toLowerCase], a built-in of the platform. *)
Variable toLowerCase : jsstring -> jsstring.

(** [m.sender.toLowerCase() === currentAccount?.toLowerCase()]: with no
    account the right-hand side is [undefined], equal to no string. *)
Definition isMine (currentAccount : option jsstring) (m : MessageItem) : bool :=
  match currentAccount with
  | Some acct =>
      if jsstring_eq_dec (toLowerCase (sender m)) (toLowerCase acct)
      then true else false
  | None => false
  end.

Definition displayedMessages (a : AppState) : list MessageItem :=
  match filterType a with
  | mine => filter (isMine (currentAccount a)) (allMessages a)
  | all => allMessages a
  end.

(** The render pass reads the state cells and derives the view. *)
Definition render : M (list MessageItem) :=
  a <- getState ;;
  ret (displayedMessages a).

End View.

(** Lower-casing of the ASCII letters, which is what [toLowerCase] does on
    hexadecimal address strings. *)
Definition asciiToLowerCase (s : jsstring) : jsstring :=
  map (fun c => if ((65 <=? c) && (c <=? 90))%N then (c + 32)%N else c) s.

(* ===================================================================== *)
(** * Notions used by the statements *)
(* ===================================================================== *)

(** [Number.MAX_SAFE_INTEGER]: up to it, integer arithmetic on Numbers is
    exact. *)
Definition MAX_SAFE_INTEGER : Z := 2 ^ 53 - 1.

(** The length of the log that the node reports to a request sent at
    instant [t], if it reports one, is a value for which [Number(count)],
    [count - 1], [count - 50] and [i--] are exact.  Beyond that range the
    loop of [getAllMessages] runs on rounded Numbers and is not described
    by [pushMessages]; every statement that follows a fetch through its
    loop is made under this condition. *)
Definition safeCountAt (env : Env) (t : N) : Prop :=
  forall count,
    outcome (contract_getMessagesCount env t) = Fulfilled count ->
    (0 <= count <= MAX_SAFE_INTEGER)%Z.

(** The same for every request the node may receive. *)
Definition safeCounts (env : Env) : Prop := forall t, safeCountAt env t.

(** The [disabled] attribute of the Post button. *)
Definition submitDisabled (a : AppState) : bool :=
  match currentAccount a with
  | None => true
  | Some acct => falsy acct
  end || isSubmitting a || falsy (trim (message a)).

(** The activations of handlers recorded in a trace, newest first. *)
Fixpoint calls (tr : list Event) : list Handler :=
  match tr with
  | [] => []
  | Call h :: tr' => h :: calls tr'
  | _ :: tr' => calls tr'
  end.

(** The requests recorded in a trace, newest first. *)
Fixpoint sent (tr : list Event) : list Request :=
  match tr with
  | [] => []
  | Send r :: tr' => r :: sent tr'
  | _ :: tr' => sent tr'
  end.

(** The world with further events recorded ([es] newest first). *)
Definition emits (es : list Event) (w : World) : World :=
  {| app := app w; toastTimeoutRef := toastTimeoutRef w; now := now w;
     timers := timers w; nextHandle := nextHandle w; trace := es ++ trace w |}.

(** [hi, hi - 1, ...], [n] indices. *)
Fixpoint countdown (hi : Z) (n : nat) : list Z :=
  match n with
  | O => []
  | S n' => hi :: countdown (hi - 1) n'
  end.

(** The promise that [contract.Messages(j)] returns when called at [t]. *)
Definition promiseAt (env : Env) (t : N) (j : Z) : Promise RawMessage :=
  {| settles := (t + latency (contract_Messages env t j))%N;
     settlement := outcome (contract_Messages env t j) |}.

(** Every pending timer is the one [toastTimeoutRef] holds, and handles
    still to be handed out are not in use. *)
Definition timersOwned (w : World) : Prop :=
  (forall h d, In (h, d) (timers w) -> toastTimeoutRef w = Some h) /\
  (forall h d, In (h, d) (timers w) -> (h < nextHandle w)%positive).

(** The world after [showToast ty m]: the timer held by the ref is
    cleared, the toast is replaced, a timer of 3000 ms is started. *)
Definition toasted (ty : ToastType) (m : jsstring) (w : World) : World :=
  {| app := setToast (fun _ => {| show := true; type := ty; msg := m |}) (app w);
     toastTimeoutRef := Some (nextHandle w);
     now := now w;
     timers :=
       match toastTimeoutRef w with
       | Some h => filter (fun tm => negb (Pos.eqb (fst tm) h)) (timers w)
       | None => timers w
       end ++ [(nextHandle w, (now w + 3000)%N)];
     nextHandle := Pos.succ (nextHandle w);
     trace := Toast ty m :: trace w |}.

(** The world after the [catch] and [finally] blocks of [getAllMessages]. *)
Definition fetchFailed (e : JsError) (w : World) : World :=
  withApp (setIsLoadingMessages false)
    (toasted error (lit "Failed to fetch messages") (logged (ConsoleError e) w)).

(** The world after the [catch] and [finally] blocks of [postMessage]. *)
Definition postFailed (e : JsError) (w : World) : World :=
  withApp (setIsSubmitting false)
    (toasted error (lit "Transaction failed. Check console.")
       (logged (ConsoleError e) w)).

(** The ways in which a submission can fail: [provider.getSigner()],
    [contract.postMessage(message)] or [tx.wait()] is rejected.  Each
    request is answered as of the instant at which it is sent. *)
Inductive postFails (env : Env) (w : World) : JsError -> Prop :=
| signer_unavailable e :
    outcome (provider_getSigner env (now w)) = Rejected e ->
    postFails env w e
| submission_rejected signer e :
    let rs := provider_getSigner env (now w) in
    outcome rs = Fulfilled signer ->
    outcome (contract_postMessage env (now w + latency rs) signer
               (message (app w))) = Rejected e ->
    postFails env w e
| confirmation_failed signer tx e :
    let rs := provider_getSigner env (now w) in
    let t1 := (now w + latency rs)%N in
    let rp := contract_postMessage env t1 signer (message (app w)) in
    outcome rs = Fulfilled signer ->
    outcome rp = Fulfilled tx ->
    outcome (tx_wait env (t1 + latency rp) tx) = Rejected e ->
    postFails env w e.

(** The submission reaches finality: the three steps are fulfilled. *)
Definition postConfirmed (env : Env) (w : World) : Prop :=
  let rs := provider_getSigner env (now w) in
  let t1 := (now w + latency rs)%N in
  exists signer tx,
    outcome rs = Fulfilled signer /\
    let rp := contract_postMessage env t1 signer (message (app w)) in
    outcome rp = Fulfilled tx /\
    outcome (tx_wait env (t1 + latency rp) tx) = Fulfilled tt.

(** A read of [getAllMessages] fails: the count, or the entry at one of
    the indices of the window. *)
Inductive fetchFails (env : Env) (w : World) : Prop :=
| count_read_failed e :
    outcome (contract_getMessagesCount env (now w)) = Rejected e ->
    fetchFails env w
| entry_read_failed count i e :
    let r := contract_getMessagesCount env (now w) in
    outcome r = Fulfilled count ->
    (Z.max 0 (count - 50) <= i < count)%Z ->
    outcome (contract_Messages env (now w + latency r) i) = Rejected e ->
    fetchFails env w.

(** The computation [c] preserves the property [I] of worlds. *)
Definition keeps (I : World -> Prop) {A} (c : M A) : Prop :=
  forall w, I w -> I (snd (c w)).

(** What can happen to the component: a handler is activated and runs
    to completion, the user types or switches the tab, time passes.  The
    worlds related are those between activations; a world in which a
    handler is suspended at an [await] is not among them. *)
Inductive Step (env : Env) : World -> World -> Prop :=
| step_connectWallet w : Step env w (snd (connectWallet env w))
| step_checkIfWalletIsConnected w :
    Step env w (snd (checkIfWalletIsConnected env w))
| step_getOwner w : Step env w (snd (getOwner env w))
| step_getAllMessages w : Step env w (snd (getAllMessages env w))
| step_postMessage w : Step env w (snd (postMessage env w))
| step_copyAddress addr w : Step env w (snd (copyAddress addr w))
| step_accountsChanged accounts w :
    Step env w (snd (accountsChanged env accounts w))
| step_type text w : Step env w (withApp (setMessage text) w)
| step_filter f w : Step env w (withApp (setFilterType f) w)
| step_elapse dt w : Step env w (elapse dt w).

(** The worlds the component can be in. *)
Inductive reachable (env : Env) : World -> Prop :=
| reach_initial : reachable env initialWorld
| reach_step w w' : reachable env w -> Step env w w' -> reachable env w'.

(* ===================================================================== *)
(** * The markup that depends on the state *)
(* ===================================================================== *)

Section Markup.

(** [String.prototype.toLowerCase], as in the filtered view. *)
Variable toLowerCase : jsstring -> jsstring.

(** What the list of messages shows: the spinner, the cards, or the
    "No messages yet" placeholder. *)
Inductive FeedPane :=
| LoadingState
| MessageCards (cards : list MessageItem)
| EmptyState.

Definition feedPane (a : AppState) : FeedPane :=
  if isLoadingMessages a && (List.length (allMessages a) =? 0)%nat
  then LoadingState
  else
    match displayedMessages toLowerCase a with
    | [] => EmptyState
    | m :: l => MessageCards (m :: l)
    end.

End Markup.

(** The [disabled] attributes of the Refresh button, of the "My Posts"
    tab and of the textarea. *)
Definition refreshDisabled (a : AppState) : bool := isLoadingMessages a.

Definition mineTabDisabled (a : AppState) : bool :=
  match currentAccount a with
  | None => true
  | Some acct => falsy acct
  end.

Definition textareaDisabled (a : AppState) : bool :=
  mineTabDisabled a || isSubmitting a.

(* ===================================================================== *)
(** * How the handlers build their final world *)
(* ===================================================================== *)

(** The elementary changes of the world that the handlers are made of:
    an event is recorded, time passes, a toast is shown, one state setter
    runs.  The feed is only ever set to a list of at most 50 entries. *)
Inductive basic : World -> World -> Prop :=
| basic_logged e w : basic w (logged e w)
| basic_runUntil t w : basic w (runUntil t w)
| basic_toasted ty m w : basic w (toasted ty m w)
| basic_setCurrentAccount v w : basic w (withApp (setCurrentAccount v) w)
| basic_setOwner v w : basic w (withApp (setOwner v) w)
| basic_setMessage v w : basic w (withApp (setMessage v) w)
| basic_setIsSubmitting v w : basic w (withApp (setIsSubmitting v) w)
| basic_setIsLoadingMessages v w :
    basic w (withApp (setIsLoadingMessages v) w)
| basic_setFilterType v w : basic w (withApp (setFilterType v) w)
| basic_setAllMessages v w :
    (List.length v <= 50)%nat -> basic w (withApp (setAllMessages v) w).

Inductive built : World -> World -> Prop :=
| built_refl w : built w w
| built_step w1 w2 w3 : basic w2 w3 -> built w1 w2 -> built w1 w3.

(** The toast on display, if any, has a pending timer that hides it
    within 3000 ms; no other timer is pending. *)
Definition toastExpires (w : World) : Prop :=
  (List.length (timers w) <= 1)%nat /\
  (show (toast (app w)) = true ->
   exists h d, timers w = [(h, d)] /\ (d <= now w + 3000)%N) /\
  (show (toast (app w)) = false -> timers w = []).

(** Every code unit of the string is white space. *)
Definition blank (s : jsstring) : bool := forallb isWhiteSpace s.

(* ===================================================================== *)
(** * A small chain and a few worlds, for examples *)
(* ===================================================================== *)

Definition alice : jsstring := lit "0xAAaaAAaaAAaaAAaaAAaaAAaaAAaaAAaaAAaaAAaa".
Definition bob : jsstring := lit "0xbbbbbbbbbbbbbbbbbbbbbbbbbbbbbbbbbbbbbbbb".

Definition entry0 : RawMessage :=
  {| msg_sender := alice; msg_text := lit "gm"; msg_timestamp := 1700000000 |}.
Definition entry1 : RawMessage :=
  {| msg_sender := bob; msg_text := lit "hello wall"; msg_timestamp := 1700000060 |}.
Definition entry2 : RawMessage :=
  {| msg_sender := alice; msg_text := lit "again"; msg_timestamp := 1700000120 |}.

(** A log of three entries, by alice, bob, alice. *)
Definition demoLog (i : Z) : RawMessage :=
  if (i =? 0)%Z then entry0 else if (i =? 1)%Z then entry1 else entry2.

Definition fulfilledAfter {A} (l : N) (a : A) : Reply A :=
  {| latency := l; outcome := Fulfilled a |}.

Definition rejectedAfter {A} (l : N) (code : Z) : Reply A :=
  {| latency := l; outcome := Rejected (Err code) |}.

(** [wallet]: is there a provider; [approve]: does the user grant the
    connection; [badIndex]: an index whose read fails; [confirm]: is the
    transaction mined. *)
Definition demoEnv (wallet approve : bool) (badIndex : option Z) (confirm : bool)
  : Env :=
  {| ethereum := wallet;
     eth_requestAccounts := fun _ =>
       if approve then fulfilledAfter 800 [alice] else rejectedAfter 500 4001;
     eth_accounts := fun _ => fulfilledAfter 5 [];
     contract_owner := fun _ => fulfilledAfter 40 bob;
     contract_getMessagesCount := fun _ => fulfilledAfter 50 3%Z;
     contract_Messages := fun _ i =>
       match badIndex with
       | Some b => if (i =? b)%Z then rejectedAfter 30 (-32000)
                   else fulfilledAfter (20 + Z.to_N i) (demoLog i)
       | None => fulfilledAfter (20 + Z.to_N i) (demoLog i)
       end;
     provider_getSigner := fun _ => fulfilledAfter 5 alice;
     contract_postMessage := fun _ _ _ => fulfilledAfter 1000 77%N;
     tx_wait := fun _ _ =>
       if confirm then fulfilledAfter 12000 tt else rejectedAfter 12000 3 |}.

(** A wallet, a willing user, a healthy chain. *)
Definition healthyEnv : Env := demoEnv true true None true.

(** No wallet extension in the browser. *)
Definition noWalletEnv : Env := demoEnv false true None true.

(** The read of entry 1 fails. *)
Definition flakyEnv : Env := demoEnv true true (Some 1%Z) true.

(** The transaction is sent but reverts. *)
Definition revertEnv : Env := demoEnv true true None false.

(** The user declines the connection request. *)
Definition refusingEnv : Env := demoEnv true false None true.

(** The initial world with a draft typed in. *)
Definition draftWorld : World := withApp (setMessage (lit "gm")) initialWorld.

(** Connected as alice, with a draft typed in: the Post button is enabled. *)
Definition readyWorld : World :=
  withApp (setCurrentAccount (Some alice)) draftWorld.

(** The initial world with only white space typed in. *)
Definition blankWorld : World :=
  withApp (setMessage [32; 9; 10; 160]%N) initialWorld.

(** The "My Posts" tab with a feed but no account. *)
Definition mineWorld : World :=
  withApp (setFilterType mine)
    (withApp (setAllMessages (map formatMessage [entry2; entry1; entry0]))
       initialWorld).

(** The toasts recorded in a trace, newest first. *)
Fixpoint toasts (tr : list Event) : list (ToastType * jsstring) :=
  match tr with
  | [] => []
  | Toast ty m :: tr' => (ty, m) :: toasts tr'
  | _ :: tr' => toasts tr'
  end.

(** The requests that read the log, and the one that writes to it. *)
Definition isRead (r : Request) : bool :=
  match r with
  | Req_getMessagesCount | Req_Messages _ => true
  | _ => false
  end.

Definition isWrite (r : Request) : bool :=
  match r with
  | Req_postMessage _ => true
  | _ => false
  end.

(** [rgb(r,g,b)] as the template literal of [generateAvatarGradient]
    prints it. *)
Definition rgb (r g b : Z) : jsstring :=
  lit "rgb(" ++ numToString r ++ lit "," ++ numToString g ++ lit ","
    ++ numToString b ++ lit ")".

Definition isHexDigit (c : code_unit) : bool :=
  match hexDigit c with Some _ => true | None => false end.

(** A world of a session: alice connects, types "gm" and posts it. *)
Definition sessionWorld : World :=
  snd (postMessage healthyEnv
         (withApp (setMessage (lit "gm"))
            (snd (connectWallet healthyEnv initialWorld)))).

(** The session just before the post. *)
Definition connectedWorld : World :=
  withApp (setMessage (lit "gm")) (snd (connectWallet healthyEnv initialWorld)).

(** What [asciiToLowerCase] does to one code unit. *)
Definition lowerUnit (c : code_unit) : code_unit :=
  if ((65 <=? c) && (c <=? 90))%N then (c + 32)%N else c.

(** The wallet is there but hands out no signer. *)
Definition lockedEnv : Env :=
  {| ethereum := true;
     eth_requestAccounts := eth_requestAccounts healthyEnv;
     eth_accounts := eth_accounts healthyEnv;
     contract_owner := contract_owner healthyEnv;
     contract_getMessagesCount := contract_getMessagesCount healthyEnv;
     contract_Messages := contract_Messages healthyEnv;
     provider_getSigner := fun _ => rejectedAfter 5 4100;
     contract_postMessage := contract_postMessage healthyEnv;
     tx_wait := tx_wait healthyEnv |}.

(** Transactions are mined, but the node refuses to tell the length of
    the log. *)
Definition staleEnv : Env :=
  {| ethereum := true;
     eth_requestAccounts := eth_requestAccounts healthyEnv;
     eth_accounts := eth_accounts healthyEnv;
     contract_owner := contract_owner healthyEnv;
     contract_getMessagesCount := fun _ => rejectedAfter 50 (-32000);
     contract_Messages := contract_Messages healthyEnv;
     provider_getSigner := provider_getSigner healthyEnv;
     contract_postMessage := contract_postMessage healthyEnv;
     tx_wait := tx_wait healthyEnv |}.

(** A draft with white space around it. *)
Definition paddedWorld : World :=
  withApp (setMessage (lit "  gm ")) initialWorld.

(** Without a wallet, after a click on "Connect Wallet". *)
Definition strandedWorld : World := snd (connectWallet noWalletEnv initialWorld).

(** The session of [sessionWorld] after a click on the "My Messages" tab. *)
Definition mineSessionWorld : World := withApp (setFilterType mine) sessionWorld.

(* ===================================================================== *)
(** * Basic facts: timers and the clock *)
(* ===================================================================== *)

Lemma hideToast_idem (a : AppState) : hideToast (hideToast a) = hideToast a.
Proof. reflexivity. Qed.

Lemma fired_app (l : list (positive * N)) (a : AppState) :
  fold_left (fun a _ => hideToast a) l a =
  match l with [] => a | _ :: _ => hideToast a end.
Proof.
  destruct l as [|x l]; [reflexivity|]. cbn [fold_left].
  induction l as [|y l IH]; [reflexivity|]. cbn [fold_left].
  rewrite hideToast_idem. exact IH.
Qed.

Lemma runUntil_app (t : N) (w : World) :
  app (runUntil t w) =
  match filter (isDue t) (timers w) with
  | [] => app w
  | _ :: _ => hideToast (app w)
  end.
Proof. unfold runUntil; cbn [app]. apply fired_app. Qed.

(** The clock touches no state cell but the visibility of the toast. *)
Lemma runUntil_cells (t : N) (w : World) :
  let a := app w in
  let a' := app (runUntil t w) in
  currentAccount a' = currentAccount a /\ owner a' = owner a /\
  message a' = message a /\ isSubmitting a' = isSubmitting a /\
  isLoadingMessages a' = isLoadingMessages a /\
  allMessages a' = allMessages a /\ filterType a' = filterType a /\
  type (toast a') = type (toast a) /\ msg (toast a') = msg (toast a).
Proof.
  cbv zeta. rewrite runUntil_app.
  destruct (filter (isDue t) (timers w)); repeat split; reflexivity.
Qed.

Lemma runUntil_currentAccount t w :
  currentAccount (app (runUntil t w)) = currentAccount (app w).
Proof. apply (runUntil_cells t w). Qed.

Lemma runUntil_message t w : message (app (runUntil t w)) = message (app w).
Proof. apply (runUntil_cells t w). Qed.

Lemma runUntil_isSubmitting t w :
  isSubmitting (app (runUntil t w)) = isSubmitting (app w).
Proof. apply (runUntil_cells t w). Qed.

Lemma runUntil_isLoadingMessages t w :
  isLoadingMessages (app (runUntil t w)) = isLoadingMessages (app w).
Proof. apply (runUntil_cells t w). Qed.

Lemma runUntil_allMessages t w :
  allMessages (app (runUntil t w)) = allMessages (app w).
Proof. apply (runUntil_cells t w). Qed.

Lemma runUntil_owner t w : owner (app (runUntil t w)) = owner (app w).
Proof. apply (runUntil_cells t w). Qed.

Lemma runUntil_filterType t w :
  filterType (app (runUntil t w)) = filterType (app w).
Proof. apply (runUntil_cells t w). Qed.

Lemma runUntil_trace t w : trace (runUntil t w) = trace w.
Proof. reflexivity. Qed.

Lemma runUntil_now t w : now (runUntil t w) = N.max (now w) t.
Proof. reflexivity. Qed.

Create Rewrite HintDb cells.
#[global] Hint Rewrite runUntil_currentAccount runUntil_message
  runUntil_isSubmitting runUntil_isLoadingMessages runUntil_allMessages
  runUntil_owner runUntil_filterType runUntil_trace runUntil_now : cells.

(* ===================================================================== *)
(** * The read loop *)
(* ===================================================================== *)

Lemma calls_app (es tr : list Event) : calls (es ++ tr) = calls es ++ calls tr.
Proof.
  induction es as [|[] es IH]; cbn; rewrite ?IH; reflexivity.
Qed.

Lemma calls_sends (js : list Z) :
  calls (map (fun j => Send (Req_Messages j)) js) = [].
Proof. induction js; cbn; auto. Qed.

Lemma emits_nil (w : World) : emits [] w = w.
Proof. destruct w; reflexivity. Qed.

(** The loop sends one read per index, from [i] down to [limit], all at
    the same instant, and collects the promises in that order. *)
Lemma pushMessages_spec (env : Env) (n : nat) :
  forall i limit promises w,
    n = Z.to_nat (i - limit + 1) ->
    pushMessages env i limit promises w =
    (Normal (promises ++ map (promiseAt env (now w)) (countdown i n)),
     emits (rev (map (fun j => Send (Req_Messages j)) (countdown i n))) w).
Proof.
  induction n as [|n IH]; intros i limit promises w Hn.
  - rewrite pushMessages_equation_1.
    destruct (Z_lt_le_dec i limit) as [Hlt|Hge]; [|lia].
    cbn. rewrite app_nil_r, emits_nil. reflexivity.
  - rewrite pushMessages_equation_1.
    destruct (Z_lt_le_dec i limit) as [Hlt|Hge]; [lia|].
    cbn [pushMessages_unfold_clause_1].
    unfold bind at 1. unfold request, bind, emit, getNow, ret.
    rewrite (IH (i - 1)%Z limit) by lia.
    cbn [now countdown map rev]. f_equal.
    + f_equal. rewrite <- app_assoc. reflexivity.
    + unfold emits; cbn. rewrite <- app_assoc. reflexivity.
Qed.

Arguments pushMessages : simpl never.

Lemma countdown_length hi n : List.length (countdown hi n) = n.
Proof. revert hi; induction n; intros; cbn; auto. Qed.

Lemma countdown_In hi n j :
  In j (countdown hi n) -> (hi - Z.of_nat n < j <= hi)%Z.
Proof.
  revert hi; induction n as [|n IH]; intros hi; cbn [countdown In].
  - tauto.
  - intros [<-|H]; [lia|]. apply IH in H. lia.
Qed.

Lemma countdown_nth hi n k :
  (k < n)%nat -> nth_error (countdown hi n) k = Some (hi - Z.of_nat k)%Z.
Proof.
  revert hi k; induction n as [|n IH]; intros hi k Hk; [lia|].
  destruct k as [|k]; cbn [countdown nth_error].
  - f_equal; lia.
  - rewrite IH by lia. f_equal; lia.
Qed.

(* ===================================================================== *)
(** * [Promise.all] *)
(* ===================================================================== *)

Lemma all_fulfilled (env : Env) (t : N) (log : Z -> RawMessage) (js : list Z) :
  (forall j, In j js -> outcome (contract_Messages env t j) = Fulfilled (log j)) ->
  firstRejection (map (promiseAt env t) js) = None /\
  fulfilledValues (map (promiseAt env t) js) = map log js.
Proof.
  induction js as [|j js IH]; intros H; cbn; [auto|].
  rewrite (H j) by (left; reflexivity).
  destruct IH as [-> ->]; [intros; apply H; right; assumption|].
  auto.
Qed.

Lemma some_rejected {A} (ps : list (Promise A)) (p : Promise A) (e : JsError) :
  In p ps -> settlement p = Rejected e ->
  exists t e', firstRejection ps = Some (t, e').
Proof.
  induction ps as [|q ps IH]; intros Hin He; [destruct Hin|].
  cbn [firstRejection]. destruct Hin as [->|Hin].
  - rewrite He. destruct (firstRejection ps) as [[t' e']|]; [|eauto].
    destruct (t' <? settles p)%N; eauto.
  - destruct (IH Hin He) as (t & e' & ->).
    destruct (settlement q); [eauto|].
    destruct (t <? settles q)%N; eauto.
Qed.

Lemma Promise_all_fulfilled (env : Env) (t : N) (log : Z -> RawMessage) (js : list Z) :
  (forall j, In j js -> outcome (contract_Messages env t j) = Fulfilled (log j)) ->
  settlement (Promise_all (map (promiseAt env t) js)) = Fulfilled (map log js).
Proof.
  intros H. unfold Promise_all.
  destruct (all_fulfilled env t log js H) as [-> ->]. reflexivity.
Qed.

Lemma Promise_all_rejected {A} (ps : list (Promise A)) (p : Promise A) (e : JsError) :
  In p ps -> settlement p = Rejected e ->
  exists e', settlement (Promise_all ps) = Rejected e'.
Proof.
  intros Hin He. unfold Promise_all.
  destruct (some_rejected ps p Hin He) as (t & e' & ->). cbn. eauto.
Qed.

Lemma countdown_In_iff hi n j :
  In j (countdown hi n) <-> (hi - Z.of_nat n < j <= hi)%Z.
Proof.
  split; [apply countdown_In|].
  revert hi; induction n as [|n IH]; intros hi H; [lia|].
  cbn [countdown In].
  destruct (Z.eq_dec hi j) as [->|Hne]; [left; reflexivity|].
  right. apply IH. lia.
Qed.

Lemma calls_rev_sends (js : list Z) :
  calls (rev (map (fun j => Send (Req_Messages j)) js)) = [].
Proof. rewrite <- map_rev. apply calls_sends. Qed.

(* ===================================================================== *)
(** * What one activation of a handler does *)
(* ===================================================================== *)

Unset Implicit Arguments.

Arguments runUntil : simpl never.
Arguments Promise_all : simpl never.
Arguments showToast : simpl never.
Arguments lit : simpl never.
Arguments trim : simpl never.

(** The example nodes report a log of three entries, or none. *)
Lemma demoEnv_safeCounts wallet approve badIndex confirm :
  safeCounts (demoEnv wallet approve badIndex confirm).
Proof.
  intros t count H. cbn in H. injection H as <-.
  unfold MAX_SAFE_INTEGER. lia.
Qed.

Lemma staleEnv_safeCounts : safeCounts staleEnv.
Proof. intros t count H. discriminate H. Qed.

Lemma showToast_run ty m w : showToast ty m w = (Normal tt, toasted ty m w).
Proof.
  unfold showToast, bind, readRef. destruct w as [a r n tm nh tr].
  destruct r; reflexivity.
Qed.

Lemma now_runUntil_later t d w :
  now w = t -> now (runUntil (t + d) w) = (t + d)%N.
Proof. intros <-. rewrite runUntil_now. lia. Qed.

(** One activation of [getAllMessages] with a provider: it always
    completes, in the world given by how the reads settle. *)
Lemma getAllMessages_run env w :
  ethereum env = true ->
  getAllMessages env w =
  (Normal tt,
   let r := contract_getMessagesCount env (now w) in
   let t1 := (now w + latency r)%N in
   let w1 := runUntil t1
               (logged (Send Req_getMessagesCount)
                  (withApp (setIsLoadingMessages true)
                     (logged (Call H_getAllMessages) w))) in
   match outcome r with
   | Rejected e => fetchFailed e w1
   | Fulfilled count =>
       let js := countdown (count - 1) (Z.to_nat (count - Z.max 0 (count - 50))) in
       let pa := Promise_all (map (promiseAt env t1) js) in
       let w2 := runUntil (settles pa)
                   (emits (rev (map (fun j => Send (Req_Messages j)) js)) w1) in
       match settlement pa with
       | Rejected e => fetchFailed e w2
       | Fulfilled results =>
           withApp (setIsLoadingMessages false)
             (withApp (setAllMessages (map formatMessage results)) w2)
       end
   end).
Proof.
  intros Heth. unfold getAllMessages, getProvider. rewrite Heth.
  unfold try_catch_finally, bind, request, await, emit, setState, getNow, ret, bind.
  cbn.
  destruct (outcome (contract_getMessagesCount env (now w))) as [count|e].
  - rewrite (pushMessages_spec env (n := Z.to_nat (count - Z.max 0 (count - 50)))) by lia.
    rewrite (now_runUntil_later (now w)) by reflexivity.
    destruct (settlement (Promise_all _)) as [results|e].
    + reflexivity.
    + rewrite showToast_run. reflexivity.
  - rewrite showToast_run. reflexivity.
Qed.

Lemma getAllMessages_absent env w :
  ethereum env = false ->
  getAllMessages env w = (Normal tt, logged (Call H_getAllMessages) w).
Proof.
  intros Heth. unfold getAllMessages, getProvider. rewrite Heth. reflexivity.
Qed.

Arguments getAllMessages : simpl never.

(** One activation of [postMessage] with a provider and a message that
    is not blank. *)
Lemma postMessage_run env w :
  ethereum env = true ->
  falsy (trim (message (app w))) = false ->
  postMessage env w =
  (Normal tt,
   let m := message (app w) in
   let rs := provider_getSigner env (now w) in
   let t1 := (now w + latency rs)%N in
   let w1 := runUntil t1
               (logged (Send Req_getSigner)
                  (withApp (setIsSubmitting true)
                     (logged (Call H_postMessage) w))) in
   match outcome rs with
   | Rejected e => postFailed e w1
   | Fulfilled signer =>
       let rp := contract_postMessage env t1 signer m in
       let t2 := (t1 + latency rp)%N in
       let w2 := runUntil t2 (logged (Send (Req_postMessage m)) w1) in
       match outcome rp with
       | Rejected e => postFailed e w2
       | Fulfilled tx =>
           let rw := tx_wait env t2 tx in
           let t3 := (t2 + latency rw)%N in
           let w3 := runUntil t3
                       (logged (Send (Req_wait tx))
                          (toasted loading
                             (lit "Transaction submitted. Waiting for confirmation...")
                             w2)) in
           match outcome rw with
           | Rejected e => postFailed e w3
           | Fulfilled _ =>
               withApp (setIsSubmitting false)
                 (toasted success (lit "Message posted successfully!")
                    (snd (getAllMessages env (withApp (setMessage (lit "")) w3))))
           end
       end
   end).
Proof.
  intros Heth Hne. unfold postMessage, getProvider. rewrite Heth.
  unfold bind at 1. cbn [emit]. unfold bind at 1. cbn [getState app logged].
  rewrite Hne.
  unfold try_catch_finally, bind, request, await, emit, setState, getNow, ret, bind.
  cbn.
  destruct (outcome (provider_getSigner env (now w))) as [signer|e];
    [|rewrite showToast_run; reflexivity].
  rewrite (now_runUntil_later (now w)) by reflexivity.
  destruct (outcome (contract_postMessage env _ signer _)) as [tx|e];
    [|rewrite showToast_run; reflexivity].
  rewrite showToast_run.
  cbn.
  rewrite (now_runUntil_later (now w + latency (provider_getSigner env (now w)))) by
    (apply now_runUntil_later; reflexivity).
  destruct (outcome (tx_wait env _ tx)) as [[]|e];
    [|rewrite showToast_run; reflexivity].
  rewrite getAllMessages_run by assumption. cbn [fst snd].
  rewrite showToast_run. reflexivity.
Qed.

Lemma postMessage_blank env w :
  falsy (trim (message (app w))) = true ->
  postMessage env w =
  (Normal tt,
   toasted error (lit "Message cannot be empty") (logged (Call H_postMessage) w)).
Proof.
  intros Hblank. unfold postMessage.
  unfold bind at 1. cbn [emit]. unfold bind at 1. cbn [getState app logged].
  rewrite Hblank. apply showToast_run.
Qed.

Lemma postMessage_absent env w :
  ethereum env = false ->
  falsy (trim (message (app w))) = false ->
  postMessage env w = (Normal tt, logged (Call H_postMessage) w).
Proof.
  intros Heth Hne. unfold postMessage, getProvider. rewrite Heth.
  unfold bind at 1. cbn [emit]. unfold bind at 1. cbn [getState app logged].
  rewrite Hne. reflexivity.
Qed.

Lemma connectWallet_run env w :
  ethereum env = true ->
  connectWallet env w =
  (Normal tt,
   let r := eth_requestAccounts env (now w) in
   let w1 := runUntil (now w + latency r)
               (logged (Send Req_eth_requestAccounts)
                  (logged (Call H_connectWallet) w)) in
   match outcome r with
   | Fulfilled accounts =>
       toasted success (lit "Wallet connected successfully")
         (withApp (setCurrentAccount (hd_error accounts)) w1)
   | Rejected e =>
       toasted error (lit "Connection rejected") (logged (ConsoleError e) w1)
   end).
Proof.
  intros Heth. unfold connectWallet, getProvider. rewrite Heth.
  unfold try_catch, try_catch_finally, bind, request, await, emit, setState,
    getNow, ret, bind.
  cbn.
  destruct (outcome (eth_requestAccounts env (now w))) as [accounts|e];
    rewrite showToast_run; reflexivity.
Qed.

Lemma connectWallet_absent env w :
  ethereum env = false ->
  connectWallet env w =
  (Normal tt,
   toasted error (lit "Please install MetaMask") (logged (Call H_connectWallet) w)).
Proof.
  intros Heth. unfold connectWallet, getProvider. rewrite Heth.
  unfold bind at 1. cbn [emit]. apply showToast_run.
Qed.

Ltac cells := repeat (progress (cbn; autorewrite with cells)).

(** [getAllMessages] leaves the cells of the other components alone and
    records exactly one activation, whatever the reads do. *)
Lemma getAllMessages_bystanders env w :
  let w' := snd (getAllMessages env w) in
  currentAccount (app w') = currentAccount (app w) /\
  owner (app w') = owner (app w) /\
  message (app w') = message (app w) /\
  isSubmitting (app w') = isSubmitting (app w) /\
  filterType (app w') = filterType (app w) /\
  calls (trace w') = H_getAllMessages :: calls (trace w).
Proof.
  cbv zeta. destruct (ethereum env) eqn:Heth.
  - rewrite getAllMessages_run by assumption. cbv zeta. cbn [snd].
    destruct (outcome _) as [count|e].
    + destruct (settlement _) as [results|e]; unfold fetchFailed; cells;
        rewrite calls_app, calls_rev_sends; repeat split; reflexivity.
    + unfold fetchFailed; cells; repeat split; reflexivity.
  - rewrite getAllMessages_absent by assumption. repeat split; reflexivity.
Qed.

(* ===================================================================== *)
(** * The toast timer *)
(* ===================================================================== *)

Lemma toasted_timers ty m w :
  timersOwned w ->
  timers (toasted ty m w) = [(nextHandle w, (now w + 3000)%N)].
Proof.
  intros [Hown _]. unfold toasted; cbn [timers].
  replace (match toastTimeoutRef w with
           | Some h => filter (fun tm => negb (Pos.eqb (fst tm) h)) (timers w)
           | None => timers w
           end) with (@nil (positive * N)); [reflexivity|].
  destruct (toastTimeoutRef w) as [h|] eqn:Href.
  - symmetry. induction (timers w) as [|[h' d'] l IH]; [reflexivity|].
    cbn [filter fst].
    assert (Some h = Some h') as [= <-] by (apply (Hown h' d'); left; reflexivity).
    rewrite Pos.eqb_refl. cbn. apply IH.
    intros h0 d0 Hin. apply (Hown h0 d0). right; exact Hin.
  - destruct (timers w) as [|[h' d'] l]; [reflexivity|].
    discriminate (Hown h' d' (or_introl eq_refl)).
Qed.

Lemma toasted_owned ty m w : timersOwned w -> timersOwned (toasted ty m w).
Proof.
  intros Hw. unfold timersOwned. rewrite (toasted_timers ty m w Hw).
  split; intros h d [[= <- <-]|[]]; cbn; [reflexivity|lia].
Qed.

Lemma runUntil_owned t w : timersOwned w -> timersOwned (runUntil t w).
Proof.
  intros [Hown Hfresh]. unfold timersOwned, runUntil; cbn.
  split; intros h d Hin; apply filter_In in Hin; destruct Hin as [Hin _]; eauto.
Qed.

Lemma logged_owned e w : timersOwned w -> timersOwned (logged e w).
Proof. intros H; exact H. Qed.

Lemma withApp_owned f w : timersOwned w -> timersOwned (withApp f w).
Proof. intros H; exact H. Qed.

Lemma initialWorld_owned : timersOwned initialWorld.
Proof. split; intros h d []. Qed.

(* ===================================================================== *)
(** * Invariants of the handlers *)
(* ===================================================================== *)

(** A property of worlds that the four world transformers preserve is
    preserved by every handler. *)
Section Keeps.

Variable I : World -> Prop.
Hypothesis I_logged : forall e w, I w -> I (logged e w).
Hypothesis I_withApp : forall f w, I w -> I (withApp f w).
Hypothesis I_runUntil : forall t w, I w -> I (runUntil t w).
Hypothesis I_toasted : forall ty m w, I w -> I (toasted ty m w).

Lemma keeps_ret {A} (a : A) : keeps I (ret a).
Proof. intros w Hw. exact Hw. Qed.

Lemma keeps_bind {A B} (c : M A) (k : A -> M B) :
  keeps I c -> (forall a, keeps I (k a)) -> keeps I (bind c k).
Proof.
  intros Hc Hk w Hw. unfold bind. specialize (Hc w Hw).
  destruct (c w) as [[a|e] w']; cbn [snd] in *; [apply Hk|]; assumption.
Qed.

Lemma keeps_try_catch_finally {A} (body : M A) handler cleanup :
  keeps I body -> (forall e, keeps I (handler e)) -> keeps I cleanup ->
  keeps I (try_catch_finally body handler cleanup).
Proof.
  intros Hb Hh Hc w Hw. unfold try_catch_finally. specialize (Hb w Hw).
  destruct (body w) as [[a|e] w1]; cbn [snd] in Hb.
  - specialize (Hc w1 Hb). destruct (cleanup w1) as [[u|e] w2]; exact Hc.
  - specialize (Hh e w1 Hb). destruct (handler e w1) as [r w2]; cbn [snd] in Hh.
    specialize (Hc w2 Hh). destruct (cleanup w2) as [[u|e'] w3]; exact Hc.
Qed.

Lemma keeps_try_catch {A} (body : M A) handler :
  keeps I body -> (forall e, keeps I (handler e)) ->
  keeps I (try_catch body handler).
Proof. intros Hb Hh. apply keeps_try_catch_finally; auto using keeps_ret. Qed.

Lemma keeps_emit e : keeps I (emit e).
Proof. intros w Hw. apply I_logged, Hw. Qed.

Lemma keeps_setState f : keeps I (setState f).
Proof. intros w Hw. apply I_withApp, Hw. Qed.

Lemma keeps_getState : keeps I getState.
Proof. intros w Hw. exact Hw. Qed.

Lemma keeps_request {A} r (ans : N -> Reply A) : keeps I (request r ans).
Proof. intros w Hw. apply I_logged, Hw. Qed.

Lemma keeps_await {A} (p : Promise A) : keeps I (await p).
Proof.
  intros w Hw. unfold await. destruct (settlement p); apply I_runUntil, Hw.
Qed.

Lemma keeps_showToast ty m : keeps I (showToast ty m).
Proof. intros w Hw. rewrite showToast_run. apply I_toasted, Hw. Qed.

Lemma I_emits es w : I w -> I (emits es w).
Proof.
  intros Hw. induction es as [|e es IH].
  - rewrite emits_nil. exact Hw.
  - change (emits (e :: es) w) with (logged e (emits es w)). apply I_logged, IH.
Qed.

Lemma keeps_pushMessages env i limit promises :
  keeps I (pushMessages env i limit promises).
Proof.
  intros w Hw.
  rewrite (@pushMessages_spec env (Z.to_nat (i - limit + 1)) i limit promises w eq_refl).
  apply I_emits, Hw.
Qed.

Ltac keeps_step :=
  first
    [ apply keeps_ret | apply keeps_emit | apply keeps_setState
    | apply keeps_getState | apply keeps_request | apply keeps_await
    | apply keeps_showToast | apply keeps_pushMessages
    | apply keeps_bind; [|intros ?]
    | apply keeps_try_catch; [|intros ?]
    | apply keeps_try_catch_finally; [|intros ?|] ].

Lemma keeps_getAllMessages env : keeps I (getAllMessages env).
Proof.
  unfold getAllMessages, getProvider.
  destruct (ethereum env); repeat keeps_step.
Qed.

Lemma keeps_connectWallet env : keeps I (connectWallet env).
Proof.
  unfold connectWallet, getProvider.
  destruct (ethereum env); repeat keeps_step.
Qed.

Lemma keeps_checkIfWalletIsConnected env : keeps I (checkIfWalletIsConnected env).
Proof.
  unfold checkIfWalletIsConnected, getProvider.
  destruct (ethereum env); repeat keeps_step.
  match goal with a : list jsstring |- _ => destruct a end; repeat keeps_step.
Qed.

Lemma keeps_getOwner env : keeps I (getOwner env).
Proof.
  unfold getOwner, getProvider. destruct (ethereum env); repeat keeps_step.
Qed.

Lemma keeps_postMessage env : keeps I (postMessage env).
Proof.
  unfold postMessage, getProvider.
  apply keeps_bind; [apply keeps_emit|intros _].
  apply keeps_bind; [apply keeps_getState|intros a].
  destruct (falsy (trim (message a))); [apply keeps_showToast|].
  destruct (ethereum env);
    repeat first [apply keeps_getAllMessages | keeps_step].
Qed.

Lemma keeps_copyAddress addr : keeps I (copyAddress addr).
Proof. unfold copyAddress. repeat keeps_step. Qed.

Lemma keeps_accountsChanged env accounts : keeps I (accountsChanged env accounts).
Proof.
  unfold accountsChanged. destruct (ethereum env); repeat keeps_step.
Qed.

(** An invariant of the four world transformers holds in every world
    reachable from one where it holds. *)
Lemma Step_keeps env w w' : Step env w w' -> I w -> I w'.
Proof.
  intros [ ] Hw.
  - apply keeps_connectWallet, Hw.
  - apply keeps_checkIfWalletIsConnected, Hw.
  - apply keeps_getOwner, Hw.
  - apply keeps_getAllMessages, Hw.
  - apply keeps_postMessage, Hw.
  - apply keeps_copyAddress, Hw.
  - apply keeps_accountsChanged, Hw.
  - apply I_withApp, Hw.
  - apply I_withApp, Hw.
  - apply I_runUntil, Hw.
Qed.

End Keeps.

(** Every reachable world has its timers owned. *)
Lemma reachable_owned env w : reachable env w -> timersOwned w.
Proof.
  induction 1 as [|w w' _ IH Hstep].
  - apply initialWorld_owned.
  - apply (Step_keeps timersOwned logged_owned withApp_owned runUntil_owned
             toasted_owned env w w' Hstep IH).
Qed.

Lemma elapse_before_due w h due e :
  timers w = [(h, due)] -> (now w + e < due)%N ->
  app (elapse e w) = app w /\ timers (elapse e w) = [(h, due)] /\
  toastTimeoutRef (elapse e w) = toastTimeoutRef w /\
  nextHandle (elapse e w) = nextHandle w /\
  now (elapse e w) = (now w + e)%N.
Proof.
  intros Ht Hlt. unfold elapse. rewrite runUntil_app, runUntil_now.
  unfold runUntil; cbn [timers toastTimeoutRef nextHandle]. rewrite Ht.
  cbn [filter]. unfold isDue; cbn [snd].
  assert (Hd : (due <=? now w + e)%N = false) by (apply N.leb_gt; exact Hlt).
  rewrite Hd. cbn. repeat split. lia.
Qed.

Lemma elapse_after_due w h due e :
  timers w = [(h, due)] -> (due <= now w + e)%N ->
  app (elapse e w) = hideToast (app w) /\ timers (elapse e w) = [].
Proof.
  intros Ht Hle. unfold elapse. rewrite runUntil_app.
  unfold runUntil; cbn [timers]. rewrite Ht. cbn [filter].
  unfold isDue; cbn [snd].
  assert (Hd : (due <=? now w + e)%N = true) by (apply N.leb_le; exact Hle).
  rewrite Hd. cbn. split; reflexivity.
Qed.

(* ===================================================================== *)
(** * Examples *)
(* ===================================================================== *)

Example gradient_of_contract :
  generateAvatarGradient (lit "0xC12F1c378580e22ab3491E055de000FED075E24c")
  = lit "linear-gradient(135deg, rgb(47,28,55), rgb(208,227,200))".
Proof. vm_compute. reflexivity. Qed.

Example gradient_of_top_bit_set :
  generateAvatarGradient (lit "0xFFfe01a0")
  = lit "linear-gradient(135deg, rgb(254,1,160), rgb(1,254,95))".
Proof. vm_compute. reflexivity. Qed.

Example gradient_of_non_hex :
  generateAvatarGradient (lit "wallet")
  = lit "linear-gradient(135deg, rgb(0,0,0), rgb(255,255,255))".
Proof. vm_compute. reflexivity. Qed.

Example gradient_of_empty :
  generateAvatarGradient [] = lit "linear-gradient(135deg, #ccc, #999)".
Proof. reflexivity. Qed.

Example shorten_contract :
  shortenAddress (lit "0xC12F1c378580e22ab3491E055de000FED075E24c")
  = lit "0xC12F...E24c".
Proof. vm_compute. reflexivity. Qed.

Example trim_keeps_inner_space : trim (lit "  hello wall ") = lit "hello wall".
Proof. vm_compute. reflexivity. Qed.

(** The scenario of a log of three entries by A, B, A. *)
Example feed_of_three :
  allMessages (app (snd (getAllMessages healthyEnv initialWorld)))
  = map formatMessage [entry2; entry1; entry0].
Proof. vm_compute. reflexivity. Qed.

Example mine_of_three :
  let w := snd (connectWallet healthyEnv
                  (snd (getAllMessages healthyEnv initialWorld))) in
  displayedMessages asciiToLowerCase (setFilterType mine (app w))
  = map formatMessage [entry2; entry0].
Proof. vm_compute. reflexivity. Qed.

Example requests_of_three :
  sent (trace (snd (getAllMessages healthyEnv initialWorld)))
  = [Req_Messages 0; Req_Messages 1; Req_Messages 2; Req_getMessagesCount].
Proof. vm_compute. reflexivity. Qed.

(* ===================================================================== *)
(** * The read path: [getAllMessages] *)
(* ===================================================================== *)

(** C1.  When the count read returns [count] and the reads of the window
    succeed, [getAllMessages] completes and the feed has exactly
    [min count 50] entries: never more than 50, exactly [count] when
    [count < 50].  The entry at position [k] is the formatted log entry of
    index [count - 1 - k], so the feed is in strictly descending order of
    log index and position 0 holds index [count - 1].  [count] ranges over
    the integers that a Number holds exactly. *)
Theorem getAllMessages_window env w count (log : Z -> RawMessage) :
  ethereum env = true ->
  outcome (contract_getMessagesCount env (now w)) = Fulfilled count ->
  (0 <= count <= MAX_SAFE_INTEGER)%Z ->
  (forall i, (Z.max 0 (count - 50) <= i < count)%Z ->
     outcome (contract_Messages env
                (now w + latency (contract_getMessagesCount env (now w))) i)
     = Fulfilled (log i)) ->
  let feed := allMessages (app (snd (getAllMessages env w))) in
  fst (getAllMessages env w) = Normal tt /\
  List.length feed = Z.to_nat (Z.min count 50) /\
  (List.length feed <= 50)%nat /\
  ((count < 50)%Z -> List.length feed = Z.to_nat count) /\
  (forall k, (k < List.length feed)%nat ->
     nth_error feed k = Some (formatMessage (log (count - 1 - Z.of_nat k)%Z))).
Proof.
  intros Heth Hc Hrange Hlog feed.
  assert (Hfeed : feed = map formatMessage
            (map log (countdown (count - 1) (Z.to_nat (Z.min count 50))))).
  { subst feed. rewrite getAllMessages_run by assumption. cbv zeta.
    rewrite Hc.
    replace (Z.to_nat (count - Z.max 0 (count - 50)))
      with (Z.to_nat (Z.min count 50)) by lia.
    rewrite (Promise_all_fulfilled env _ log).
    - reflexivity.
    - intros j Hj. apply countdown_In in Hj. apply Hlog. lia. }
  assert (Hlen : List.length feed = Z.to_nat (Z.min count 50)).
  { rewrite Hfeed, !length_map. apply countdown_length. }
  split; [rewrite getAllMessages_run by assumption; reflexivity|].
  split; [exact Hlen|]. split; [lia|]. split; [intros; lia|].
  intros k Hk. rewrite Hfeed, !nth_error_map, countdown_nth by lia.
  reflexivity.
Qed.

Lemma getAllMessages_window_witness :
  ethereum healthyEnv = true /\
  outcome (contract_getMessagesCount healthyEnv (now initialWorld)) = Fulfilled 3%Z /\
  (0 <= 3 <= MAX_SAFE_INTEGER)%Z /\
  (forall i, (Z.max 0 (3 - 50) <= i < 3)%Z ->
     outcome (contract_Messages healthyEnv
                (now initialWorld
                 + latency (contract_getMessagesCount healthyEnv (now initialWorld))) i)
     = Fulfilled (demoLog i)) /\
  let feed := allMessages (app (snd (getAllMessages healthyEnv initialWorld))) in
  fst (getAllMessages healthyEnv initialWorld) = Normal tt /\
  List.length feed = Z.to_nat (Z.min 3 50) /\
  (List.length feed <= 50)%nat /\
  ((3 < 50)%Z -> List.length feed = Z.to_nat 3) /\
  (forall k, (k < List.length feed)%nat ->
     nth_error feed k = Some (formatMessage (demoLog (3 - 1 - Z.of_nat k)%Z))).
Proof.
  assert (Hreads : forall i, (Z.max 0 (3 - 50) <= i < 3)%Z ->
     outcome (contract_Messages healthyEnv
                (now initialWorld
                 + latency (contract_getMessagesCount healthyEnv (now initialWorld))) i)
     = Fulfilled (demoLog i)).
  { intros i Hi. reflexivity. }
  assert (Hrange : (0 <= 3 <= MAX_SAFE_INTEGER)%Z) by (unfold MAX_SAFE_INTEGER; lia).
  split; [reflexivity|]. split; [reflexivity|]. split; [exact Hrange|].
  split; [exact Hreads|].
  apply (getAllMessages_window healthyEnv initialWorld 3%Z demoLog);
    [reflexivity | reflexivity | exact Hrange | exact Hreads].
Defined.

(** C2.  When the count read or the read of one entry of the window
    fails, [getAllMessages] completes with [allMessages] equal to its
    value before the call, and an error toast "Failed to fetch messages"
    has been emitted and is the one on display.  The length of the log,
    if the node reports it, is taken within the range in which Numbers
    are exact ([safeCountAt]): there the window of [fetchFails] is the
    set of indices the loop asks for. *)
Theorem getAllMessages_failure_keeps_feed env w :
  ethereum env = true ->
  safeCountAt env (now w) ->
  fetchFails env w ->
  let w' := snd (getAllMessages env w) in
  fst (getAllMessages env w) = Normal tt /\
  allMessages (app w') = allMessages (app w) /\
  toast (app w') =
    {| show := true; type := error; msg := lit "Failed to fetch messages" |} /\
  exists e es,
    trace w' =
    Toast error (lit "Failed to fetch messages") :: ConsoleError e :: es ++ trace w.
Proof.
  intros Heth Hsafe Hfail. cbv zeta.
  rewrite getAllMessages_run by assumption. cbv zeta. cbn [fst snd].
  split; [reflexivity|].
  destruct Hfail as [e He | count i e r Hc Hi He].
  - rewrite He. unfold fetchFailed. cells. repeat split.
    exists e, [Send Req_getMessagesCount; Call H_getAllMessages]. reflexivity.
  - subst r. rewrite Hc.
    destruct (@Promise_all_rejected _
                (map (promiseAt env (now w + latency (contract_getMessagesCount env (now w))))
                   (countdown (count - 1) (Z.to_nat (count - Z.max 0 (count - 50)))))
                (promiseAt env (now w + latency (contract_getMessagesCount env (now w))) i) e)
      as [e' He'].
    + apply in_map. apply countdown_In_iff. lia.
    + exact He.
    + rewrite He'. unfold fetchFailed. cells. repeat split.
      eexists e', (_ ++ [Send Req_getMessagesCount; Call H_getAllMessages]).
      rewrite <- app_assoc. reflexivity.
Qed.

Lemma getAllMessages_failure_keeps_feed_witness :
  ethereum flakyEnv = true /\
  safeCountAt flakyEnv (now mineWorld) /\
  fetchFails flakyEnv mineWorld /\
  fst (getAllMessages flakyEnv mineWorld) = Normal tt /\
  allMessages (app (snd (getAllMessages flakyEnv mineWorld)))
    = allMessages (app mineWorld) /\
  toast (app (snd (getAllMessages flakyEnv mineWorld))) =
    {| show := true; type := error; msg := lit "Failed to fetch messages" |} /\
  exists e es,
    trace (snd (getAllMessages flakyEnv mineWorld)) =
    Toast error (lit "Failed to fetch messages") :: ConsoleError e
      :: es ++ trace mineWorld.
Proof.
  assert (Hfail : fetchFails flakyEnv mineWorld).
  { apply (@entry_read_failed flakyEnv mineWorld 3%Z 1%Z (Err (-32000)));
      [reflexivity | lia | reflexivity]. }
  assert (Hsafe : safeCountAt flakyEnv (now mineWorld)).
  { apply demoEnv_safeCounts. }
  split; [reflexivity|]. split; [exact Hsafe|]. split; [exact Hfail|].
  apply (getAllMessages_failure_keeps_feed flakyEnv mineWorld);
    [reflexivity | exact Hsafe | exact Hfail].
Defined.

(* ===================================================================== *)
(** * The filtered view *)
(* ===================================================================== *)

(** C3.  With the filter on [mine] and no connected account the displayed
    sequence is empty, whatever the feed holds; and for every filter mode
    the render pass that computes the displayed sequence hands back the
    world as it found it: the feed is not changed and no request is sent. *)
Theorem mine_without_account_is_empty (toLowerCase : jsstring -> jsstring)
    (w wm : World) :
  filterType (app wm) = mine ->
  currentAccount (app wm) = None ->
  displayedMessages toLowerCase (app wm) = [] /\
  fst (render toLowerCase wm) = Normal [] /\
  snd (render toLowerCase w) = w /\
  allMessages (app (snd (render toLowerCase w))) = allMessages (app w) /\
  sent (trace (snd (render toLowerCase w))) = sent (trace w).
Proof.
  intros Hmine Hnone.
  assert (Hempty : displayedMessages toLowerCase (app wm) = []).
  { unfold displayedMessages. rewrite Hmine, Hnone.
    induction (allMessages (app wm)) as [|m l IH]; [reflexivity|exact IH]. }
  split; [exact Hempty|]. split; [cbn; rewrite Hempty; reflexivity|].
  repeat split.
Qed.

Lemma mine_without_account_is_empty_witness :
  filterType (app mineWorld) = mine /\
  currentAccount (app mineWorld) = None /\
  displayedMessages asciiToLowerCase (app mineWorld) = [] /\
  fst (render asciiToLowerCase mineWorld) = Normal [] /\
  snd (render asciiToLowerCase draftWorld) = draftWorld /\
  allMessages (app (snd (render asciiToLowerCase draftWorld)))
    = allMessages (app draftWorld) /\
  sent (trace (snd (render asciiToLowerCase draftWorld))) = sent (trace draftWorld).
Proof.
  split; [reflexivity|]. split; [reflexivity|].
  apply (mine_without_account_is_empty asciiToLowerCase draftWorld mineWorld);
    reflexivity.
Defined.

(* ===================================================================== *)
(** * The write path: [postMessage] *)
(* ===================================================================== *)

(** C4.  When the trimmed input text is empty, [postMessage] sends no
    request, emits the error toast "Message cannot be empty" and changes
    no state cell but the toast: [isSubmitting], the input text and the
    feed are as before. *)
Theorem postMessage_rejects_blank env w :
  trim (message (app w)) = [] ->
  let w' := snd (postMessage env w) in
  fst (postMessage env w) = Normal tt /\
  sent (trace w') = sent (trace w) /\
  trace w' =
    Toast error (lit "Message cannot be empty") :: Call H_postMessage :: trace w /\
  app w' =
    setToast (fun _ => {| show := true; type := error;
                          msg := lit "Message cannot be empty" |}) (app w) /\
  isSubmitting (app w') = isSubmitting (app w) /\
  message (app w') = message (app w) /\
  allMessages (app w') = allMessages (app w).
Proof.
  intros Hblank. cbv zeta.
  rewrite postMessage_blank by (rewrite Hblank; reflexivity).
  repeat split; reflexivity.
Qed.

Lemma postMessage_rejects_blank_witness :
  trim (message (app blankWorld)) = [] /\
  fst (postMessage healthyEnv blankWorld) = Normal tt /\
  sent (trace (snd (postMessage healthyEnv blankWorld))) = sent (trace blankWorld) /\
  trace (snd (postMessage healthyEnv blankWorld)) =
    Toast error (lit "Message cannot be empty") :: Call H_postMessage
      :: trace blankWorld /\
  app (snd (postMessage healthyEnv blankWorld)) =
    setToast (fun _ => {| show := true; type := error;
                          msg := lit "Message cannot be empty" |}) (app blankWorld) /\
  isSubmitting (app (snd (postMessage healthyEnv blankWorld)))
    = isSubmitting (app blankWorld) /\
  message (app (snd (postMessage healthyEnv blankWorld))) = message (app blankWorld) /\
  allMessages (app (snd (postMessage healthyEnv blankWorld)))
    = allMessages (app blankWorld).
Proof.
  split; [reflexivity|].
  apply (postMessage_rejects_blank healthyEnv blankWorld). reflexivity.
Defined.

(** C5.  When the signer is obtained, the transaction is accepted and
    [tx.wait()] is fulfilled, [postMessage] completes with the input text
    empty, with [getAllMessages] activated exactly once since the
    activation of [postMessage], with the success toast emitted last and on
    display, and with [isSubmitting] false.  The refresh is part of the
    activation, so the length of the log that it reads is taken within the
    range in which Numbers are exact ([safeCounts]). *)
Theorem postMessage_confirmed env w :
  ethereum env = true ->
  safeCounts env ->
  falsy (trim (message (app w))) = false ->
  postConfirmed env w ->
  let w' := snd (postMessage env w) in
  fst (postMessage env w) = Normal tt /\
  message (app w') = lit "" /\
  calls (trace w') = H_getAllMessages :: H_postMessage :: calls (trace w) /\
  (exists es,
     trace w' = Toast success (lit "Message posted successfully!") :: es) /\
  toast (app w') =
    {| show := true; type := success;
       msg := lit "Message posted successfully!" |} /\
  isSubmitting (app w') = false.
Proof.
  intros Heth Hsafe Hne (signer & tx & Hs & Hp & Hw). cbv zeta in *.
  rewrite postMessage_run by assumption. cbv zeta. cbn [fst snd].
  rewrite Hs, Hp, Hw.
  match goal with
  | |- context [getAllMessages env ?w0] =>
      pose proof (getAllMessages_bystanders env w0) as B; cbv zeta in B;
      destruct B as (_ & _ & Bm & _ & _ & Bc)
  end.
  cbn. rewrite Bm, Bc. cells.
  repeat split; eauto.
Qed.

Lemma postMessage_confirmed_witness :
  ethereum healthyEnv = true /\
  safeCounts healthyEnv /\
  falsy (trim (message (app readyWorld))) = false /\
  postConfirmed healthyEnv readyWorld /\
  fst (postMessage healthyEnv readyWorld) = Normal tt /\
  message (app (snd (postMessage healthyEnv readyWorld))) = lit "" /\
  calls (trace (snd (postMessage healthyEnv readyWorld)))
    = H_getAllMessages :: H_postMessage :: calls (trace readyWorld) /\
  (exists es,
     trace (snd (postMessage healthyEnv readyWorld))
     = Toast success (lit "Message posted successfully!") :: es) /\
  toast (app (snd (postMessage healthyEnv readyWorld))) =
    {| show := true; type := success;
       msg := lit "Message posted successfully!" |} /\
  isSubmitting (app (snd (postMessage healthyEnv readyWorld))) = false.
Proof.
  assert (Hconf : postConfirmed healthyEnv readyWorld).
  { exists alice, 77%N. repeat split. }
  assert (Hsafe : safeCounts healthyEnv) by apply demoEnv_safeCounts.
  split; [reflexivity|]. split; [exact Hsafe|]. split; [reflexivity|].
  split; [exact Hconf|].
  apply (postMessage_confirmed healthyEnv readyWorld);
    [reflexivity | exact Hsafe | reflexivity | exact Hconf].
Defined.

(** C6.  When the submission fails (no signer, the signing or sending is
    rejected, or the confirmation fails), [postMessage] completes with the
    error toast "Transaction failed. Check console." emitted last and on
    display, with the input text as it was, with [isSubmitting] false and
    the account untouched; so the Post button, if it was enabled, is
    enabled again for another attempt. *)
Theorem postMessage_failed env w e :
  ethereum env = true ->
  falsy (trim (message (app w))) = false ->
  postFails env w e ->
  let w' := snd (postMessage env w) in
  fst (postMessage env w) = Normal tt /\
  (exists es,
     trace w' =
     Toast error (lit "Transaction failed. Check console.")
       :: ConsoleError e :: es) /\
  toast (app w') =
    {| show := true; type := error;
       msg := lit "Transaction failed. Check console." |} /\
  message (app w') = message (app w) /\
  isSubmitting (app w') = false /\
  currentAccount (app w') = currentAccount (app w) /\
  (submitDisabled (app w) = false -> submitDisabled (app w') = false).
Proof.
  intros Heth Hne Hfail. cbv zeta.
  rewrite postMessage_run by assumption. cbv zeta. cbn [fst snd].
  assert (Hdis : forall a', currentAccount a' = currentAccount (app w) ->
            message a' = message (app w) -> isSubmitting a' = false ->
            submitDisabled (app w) = false -> submitDisabled a' = false).
  { intros a' Hc Hm Hs. unfold submitDisabled. rewrite Hc, Hm, Hs.
    destruct (match currentAccount (app w) with
              | Some acct => falsy acct
              | None => true
              end);
      cbn; [discriminate|].
    rewrite Hne. destruct (isSubmitting (app w)); reflexivity. }
  split; [reflexivity|].
  destruct Hfail as [e He | signer e rs Hs He | signer tx e rs t1 rp Hs Hp He].
  - rewrite He. unfold postFailed.
    repeat split; cells; eauto. apply Hdis; cells; reflexivity.
  - subst rs. rewrite Hs, He. unfold postFailed.
    repeat split; cells; eauto. apply Hdis; cells; reflexivity.
  - subst rs t1 rp. rewrite Hs, Hp, He. unfold postFailed.
    repeat split; cells; eauto. apply Hdis; cells; reflexivity.
Qed.

Lemma postMessage_failed_witness :
  ethereum revertEnv = true /\
  falsy (trim (message (app readyWorld))) = false /\
  postFails revertEnv readyWorld (Err 3) /\
  fst (postMessage revertEnv readyWorld) = Normal tt /\
  (exists es,
     trace (snd (postMessage revertEnv readyWorld)) =
     Toast error (lit "Transaction failed. Check console.")
       :: ConsoleError (Err 3) :: es) /\
  toast (app (snd (postMessage revertEnv readyWorld))) =
    {| show := true; type := error;
       msg := lit "Transaction failed. Check console." |} /\
  message (app (snd (postMessage revertEnv readyWorld))) = message (app readyWorld) /\
  isSubmitting (app (snd (postMessage revertEnv readyWorld))) = false /\
  currentAccount (app (snd (postMessage revertEnv readyWorld)))
    = currentAccount (app readyWorld) /\
  (submitDisabled (app readyWorld) = false ->
   submitDisabled (app (snd (postMessage revertEnv readyWorld))) = false).
Proof.
  assert (Hfail : postFails revertEnv readyWorld (Err 3)).
  { apply (@confirmation_failed revertEnv readyWorld alice 77%N (Err 3));
      reflexivity. }
  split; [reflexivity|]. split; [reflexivity|]. split; [exact Hfail|].
  apply (postMessage_failed revertEnv readyWorld (Err 3));
    [reflexivity | reflexivity | exact Hfail].
Defined.

Example ready_to_post : submitDisabled (app readyWorld) = false.
Proof. vm_compute. reflexivity. Qed.

(* ===================================================================== *)
(** * The notification channel: [showToast] *)
(* ===================================================================== *)

(** C7.  A first toast is emitted, and a second one [d] < 3000 ms later,
    while the first is on display with its timer pending.  The second
    [showToast] cancels the first's timer, replaces kind and message at
    once and starts a timer of its own: the second toast stays on display
    for every delay below 3000 ms after its emission, in particular at the
    instant at which the first would have expired, and is hidden from
    3000 ms on. *)
Theorem second_toast_restarts_timer (w0 : World) ty1 m1 ty2 m2 (d : N) :
  timersOwned w0 ->
  (d < 3000)%N ->
  let h1 := nextHandle w0 in
  let w1 := snd (showToast ty1 m1 w0) in
  let w2 := elapse d w1 in
  let w3 := snd (showToast ty2 m2 w2) in
  let second := {| show := true; type := ty2; msg := m2 |} in
  toast (app w2) = {| show := true; type := ty1; msg := m1 |} /\
  timers w2 = [(h1, (now w0 + 3000)%N)] /\
  (forall due, ~ In (h1, due) (timers w3)) /\
  toast (app w3) = second /\
  timers w3 = [(Pos.succ h1, (now w0 + d + 3000)%N)] /\
  (forall e, (e < 3000)%N -> toast (app (elapse e w3)) = second) /\
  ((0 < d)%N -> toast (app (elapse (3000 - d) w3)) = second) /\
  (forall e, (3000 <= e)%N ->
     toast (app (elapse e w3)) = {| show := false; type := ty2; msg := m2 |}).
Proof.
  intros Hown Hd h1 w1 w2 w3 second.
  assert (Hw1 : w1 = toasted ty1 m1 w0)
    by (subst w1; rewrite showToast_run; reflexivity).
  assert (Hw3 : w3 = toasted ty2 m2 w2)
    by (subst w3; rewrite showToast_run; reflexivity).
  clearbody w1 w3.
  assert (Ht1 : timers w1 = [(h1, (now w0 + 3000)%N)])
    by (rewrite Hw1; apply toasted_timers, Hown).
  assert (Hnow1 : now w1 = now w0) by (rewrite Hw1; reflexivity).
  destruct (elapse_before_due w1 h1 (now w0 + 3000)%N d Ht1 ltac:(lia))
    as (Ha2 & Ht2 & Hr2 & Hn2 & Hnow2).
  fold w2 in Ha2, Ht2, Hr2, Hn2, Hnow2.
  assert (Hown2 : timersOwned w2)
    by (subst w2 w1; apply runUntil_owned, toasted_owned, Hown).
  clearbody w2.
  assert (Ht3 : timers w3 = [(Pos.succ h1, (now w0 + d + 3000)%N)]).
  { rewrite Hw3, (toasted_timers ty2 m2 w2 Hown2), Hn2, Hnow2, Hnow1, Hw1.
    reflexivity. }
  assert (Ha3 : toast (app w3) = second) by (rewrite Hw3; reflexivity).
  assert (Hnow3 : now w3 = (now w0 + d)%N).
  { rewrite Hw3. cbn [now toasted]. lia. }
  assert (Hbefore : forall e, (e < 3000)%N -> toast (app (elapse e w3)) = second).
  { intros e He.
    destruct (elapse_before_due w3 _ _ e Ht3 ltac:(lia)) as (-> & _). exact Ha3. }
  split; [rewrite Ha2, Hw1; reflexivity|].
  split; [exact Ht2|]. split.
  { intros due. rewrite Ht3. intros [[= Hh _]|[]]. lia. }
  split; [exact Ha3|]. split; [exact Ht3|]. split; [exact Hbefore|].
  split; [intros Hpos; apply Hbefore; lia|].
  intros e He.
  destruct (elapse_after_due w3 _ _ e Ht3 ltac:(lia)) as (-> & _).
  cbn. rewrite Ha3. reflexivity.
Qed.

Lemma second_toast_restarts_timer_witness :
  timersOwned initialWorld /\
  (1000 < 3000)%N /\
  let h1 := nextHandle initialWorld in
  let w1 := snd (showToast loading (lit "wait") initialWorld) in
  let w2 := elapse 1000 w1 in
  let w3 := snd (showToast success (lit "done") w2) in
  let second := {| show := true; type := success; msg := lit "done" |} in
  toast (app w2) = {| show := true; type := loading; msg := lit "wait" |} /\
  timers w2 = [(h1, (now initialWorld + 3000)%N)] /\
  (forall due, ~ In (h1, due) (timers w3)) /\
  toast (app w3) = second /\
  timers w3 = [(Pos.succ h1, (now initialWorld + 1000 + 3000)%N)] /\
  (forall e, (e < 3000)%N -> toast (app (elapse e w3)) = second) /\
  ((0 < 1000)%N -> toast (app (elapse (3000 - 1000) w3)) = second) /\
  (forall e, (3000 <= e)%N ->
     toast (app (elapse e w3)) =
     {| show := false; type := success; msg := lit "done" |}).
Proof.
  assert (Hown : timersOwned initialWorld) by (split; intros h d []).
  assert (Hd : (1000 < 3000)%N) by lia.
  split; [exact Hown|]. split; [exact Hd|].
  apply (second_toast_restarts_timer initialWorld loading (lit "wait")
           success (lit "done") 1000%N Hown Hd).
Defined.

Example second_toast_outlives_first :
  let w1 := snd (showToast loading (lit "wait") initialWorld) in
  let w3 := snd (showToast success (lit "done") (elapse 2500 w1)) in
  toast (app (elapse 500 w3))
    = {| show := true; type := success; msg := lit "done" |} /\
  toast (app (elapse 3000 w3))
    = {| show := false; type := success; msg := lit "done" |}.
Proof. vm_compute. split; reflexivity. Qed.

(* ===================================================================== *)
(** * Without a provider, and on a refused connection *)
(* ===================================================================== *)

(** C8, as the code has it.  Without a provider [connectWallet] emits the
    error toast "Please install MetaMask", sends no request and changes no
    state cell but the toast.  Without a provider [postMessage], on a
    message that is not blank, is a silent no-op: no request, no toast, no
    state change; the write is blocked by the Post button, which is
    disabled as long as no account is connected.  When the provider is
    there and the connection request is rejected, [connectWallet] emits
    the error toast "Connection rejected", a message different from the
    former, and leaves the account as it was. *)
Theorem provider_absent_or_rejected envA envR w wp wr e :
  ethereum envA = false ->
  falsy (trim (message (app wp))) = false ->
  ethereum envR = true ->
  outcome (eth_requestAccounts envR (now wr)) = Rejected e ->
  (let w' := snd (connectWallet envA w) in
   trace w' =
     Toast error (lit "Please install MetaMask") :: Call H_connectWallet :: trace w /\
   app w' =
     setToast (fun _ => {| show := true; type := error;
                           msg := lit "Please install MetaMask" |}) (app w)) /\
  (let w' := snd (postMessage envA wp) in
   trace w' = Call H_postMessage :: trace wp /\ app w' = app wp /\
   timers w' = timers wp /\
   (currentAccount (app wp) = None -> submitDisabled (app wp) = true)) /\
  (let w' := snd (connectWallet envR wr) in
   (exists es, trace w' =
      Toast error (lit "Connection rejected") :: ConsoleError e :: es) /\
   toast (app w') =
     {| show := true; type := error; msg := lit "Connection rejected" |} /\
   currentAccount (app w') = currentAccount (app wr)) /\
  lit "Please install MetaMask" <> lit "Connection rejected".
Proof.
  intros HA Hne HR Hrej. repeat split.
  - rewrite connectWallet_absent by assumption. reflexivity.
  - rewrite connectWallet_absent by assumption. reflexivity.
  - rewrite postMessage_absent by assumption. reflexivity.
  - rewrite postMessage_absent by assumption. reflexivity.
  - rewrite postMessage_absent by assumption. reflexivity.
  - intros Hnone. unfold submitDisabled. rewrite Hnone. reflexivity.
  - rewrite connectWallet_run by assumption. cbv zeta. rewrite Hrej.
    cbn. eauto.
  - rewrite connectWallet_run by assumption. cbv zeta. rewrite Hrej. reflexivity.
  - rewrite connectWallet_run by assumption. cbv zeta. rewrite Hrej.
    cells. reflexivity.
  - vm_compute. discriminate.
Qed.

Lemma provider_absent_or_rejected_witness :
  ethereum noWalletEnv = false /\
  falsy (trim (message (app draftWorld))) = false /\
  ethereum refusingEnv = true /\
  outcome (eth_requestAccounts refusingEnv (now initialWorld)) = Rejected (Err 4001) /\
  (trace (snd (connectWallet noWalletEnv initialWorld)) =
     Toast error (lit "Please install MetaMask") :: Call H_connectWallet
       :: trace initialWorld /\
   app (snd (connectWallet noWalletEnv initialWorld)) =
     setToast (fun _ => {| show := true; type := error;
                           msg := lit "Please install MetaMask" |})
       (app initialWorld)) /\
  (trace (snd (postMessage noWalletEnv draftWorld))
     = Call H_postMessage :: trace draftWorld /\
   app (snd (postMessage noWalletEnv draftWorld)) = app draftWorld /\
   timers (snd (postMessage noWalletEnv draftWorld)) = timers draftWorld /\
   (currentAccount (app draftWorld) = None ->
    submitDisabled (app draftWorld) = true)) /\
  ((exists es, trace (snd (connectWallet refusingEnv initialWorld)) =
      Toast error (lit "Connection rejected") :: ConsoleError (Err 4001) :: es) /\
   toast (app (snd (connectWallet refusingEnv initialWorld))) =
     {| show := true; type := error; msg := lit "Connection rejected" |} /\
   currentAccount (app (snd (connectWallet refusingEnv initialWorld)))
     = currentAccount (app initialWorld)) /\
  lit "Please install MetaMask" <> lit "Connection rejected".
Proof.
  split; [reflexivity|]. split; [reflexivity|].
  split; [reflexivity|]. split; [reflexivity|].
  apply (provider_absent_or_rejected noWalletEnv refusingEnv initialWorld
           draftWorld initialWorld (Err 4001)); reflexivity.
Defined.

(** Against C8 as stated: with no provider and the draft "gm",
    [postMessage] emits no toast of any kind, and the toast cell stays as
    it was. *)
Lemma postMessage_without_provider_is_silent :
  ethereum noWalletEnv = false /\
  falsy (trim (message (app draftWorld))) = false /\
  (forall ty m,
     ~ In (Toast ty m) (trace (snd (postMessage noWalletEnv draftWorld)))) /\
  toast (app (snd (postMessage noWalletEnv draftWorld))) = toast (app draftWorld) /\
  show (toast (app (snd (postMessage noWalletEnv draftWorld)))) = false.
Proof.
  split; [reflexivity|]. split; [reflexivity|]. split.
  - intros ty m. vm_compute. intros [H|[]]. discriminate H.
  - split; reflexivity.
Qed.

(* ===================================================================== *)
(** * The avatar and the guard flags *)
(* ===================================================================== *)

(** C9.  [generateAvatarGradient] is deterministic: on equal address
    strings it returns equal strings.  It reads nothing but its argument. *)
Theorem generateAvatarGradient_deterministic (a1 a2 : jsstring) :
  a1 = a2 -> generateAvatarGradient a1 = generateAvatarGradient a2.
Proof. intros ->. reflexivity. Qed.

Lemma generateAvatarGradient_deterministic_witness :
  alice = alice /\ generateAvatarGradient alice = generateAvatarGradient alice.
Proof.
  split; [reflexivity|].
  apply (generateAvatarGradient_deterministic alice alice). reflexivity.
Defined.

(** C10.  With a provider, every activation of [getAllMessages] completes
    with [isLoadingMessages] false, and every activation of [postMessage]
    on a message that is not blank completes with [isSubmitting] false,
    however the requests settle, as long as the length of the log that
    the node reports stays within the range in which Numbers are exact
    ([safeCounts]); past it the loop of [getAllMessages] need not end. *)
Theorem flags_released env w wp :
  ethereum env = true ->
  safeCounts env ->
  falsy (trim (message (app wp))) = false ->
  (fst (getAllMessages env w) = Normal tt /\
   isLoadingMessages (app (snd (getAllMessages env w))) = false) /\
  (fst (postMessage env wp) = Normal tt /\
   isSubmitting (app (snd (postMessage env wp))) = false).
Proof.
  intros Heth Hsafe Hne. split.
  - rewrite getAllMessages_run by assumption. cbv zeta. cbn [fst snd].
    split; [reflexivity|].
    destruct (outcome _); [destruct (settlement _)|]; reflexivity.
  - rewrite postMessage_run by assumption. cbv zeta. cbn [fst snd].
    split; [reflexivity|].
    destruct (outcome _); [destruct (outcome _); [destruct (outcome _)|]|];
      reflexivity.
Qed.

Lemma flags_released_witness :
  ethereum flakyEnv = true /\
  safeCounts flakyEnv /\
  falsy (trim (message (app readyWorld))) = false /\
  (fst (getAllMessages flakyEnv mineWorld) = Normal tt /\
   isLoadingMessages (app (snd (getAllMessages flakyEnv mineWorld))) = false) /\
  (fst (postMessage flakyEnv readyWorld) = Normal tt /\
   isSubmitting (app (snd (postMessage flakyEnv readyWorld))) = false).
Proof.
  assert (Hsafe : safeCounts flakyEnv) by apply demoEnv_safeCounts.
  split; [reflexivity|]. split; [exact Hsafe|]. split; [reflexivity|].
  apply (flags_released flakyEnv mineWorld readyWorld);
    [reflexivity | exact Hsafe | reflexivity].
Defined.

(* ===================================================================== *)
(** * The other handlers, activation by activation *)
(* ===================================================================== *)

Lemma getOwner_run env w :
  ethereum env = true ->
  getOwner env w =
  (Normal tt,
   let r := contract_owner env (now w) in
   let w1 := runUntil (now w + latency r)
               (logged (Send Req_owner) (logged (Call H_getOwner) w)) in
   match outcome r with
   | Fulfilled ownerAddress => withApp (setOwner (Some ownerAddress)) w1
   | Rejected e => logged (ConsoleError e) w1
   end).
Proof.
  intros Heth. unfold getOwner, getProvider. rewrite Heth.
  unfold try_catch, try_catch_finally, bind, request, await, emit, setState,
    getNow, ret, bind.
  cbn. destruct (outcome (contract_owner env (now w))); reflexivity.
Qed.

Lemma getOwner_absent env w :
  ethereum env = false ->
  getOwner env w = (Normal tt, logged (Call H_getOwner) w).
Proof.
  intros Heth. unfold getOwner, getProvider. rewrite Heth. reflexivity.
Qed.

Lemma checkIfWalletIsConnected_run env w :
  ethereum env = true ->
  checkIfWalletIsConnected env w =
  (Normal tt,
   let r := eth_accounts env (now w) in
   let w1 := runUntil (now w + latency r)
               (logged (Send Req_eth_accounts)
                  (logged (Call H_checkIfWalletIsConnected) w)) in
   match outcome r with
   | Fulfilled (a :: _) => withApp (setCurrentAccount (Some a)) w1
   | Fulfilled [] => w1
   | Rejected e => logged (ConsoleError e) w1
   end).
Proof.
  intros Heth. unfold checkIfWalletIsConnected, getProvider. rewrite Heth.
  unfold try_catch, try_catch_finally, bind, request, await, emit, setState,
    getNow, ret, bind.
  cbn. destruct (outcome (eth_accounts env (now w))) as [[|a l]|e]; reflexivity.
Qed.

Lemma checkIfWalletIsConnected_absent env w :
  ethereum env = false ->
  checkIfWalletIsConnected env w =
  (Normal tt, logged (Call H_checkIfWalletIsConnected) w).
Proof.
  intros Heth. unfold checkIfWalletIsConnected, getProvider. rewrite Heth.
  reflexivity.
Qed.

Lemma copyAddress_run addr w :
  copyAddress addr w =
  (Normal tt,
   toasted success (lit "Address copied to clipboard")
     (logged (ClipboardWrite addr) (logged (Call H_copyAddress) w))).
Proof.
  unfold copyAddress. unfold bind at 1. cbn [emit]. unfold bind at 1.
  cbn [emit]. apply showToast_run.
Qed.

Lemma accountsChanged_run env accounts w :
  snd (accountsChanged env accounts w) =
  if ethereum env then withApp (setCurrentAccount (hd_error accounts)) w else w.
Proof. unfold accountsChanged. destruct (ethereum env); reflexivity. Qed.

(* ===================================================================== *)
(** * Every step is built from the elementary changes *)
(* ===================================================================== *)

Lemma built_trans w1 w2 w3 : built w1 w2 -> built w2 w3 -> built w1 w3.
Proof.
  intros H12 H23. induction H23 as [|w2 w w3 Hb _ IH]; [exact H12|].
  eapply built_step; [exact Hb|apply IH, H12].
Qed.

Lemma built_emits es w : built w (emits es w).
Proof.
  induction es as [|e es IH].
  - rewrite emits_nil. apply built_refl.
  - change (emits (e :: es) w) with (logged e (emits es w)).
    eapply built_step; [apply basic_logged|exact IH].
Qed.

Ltac build :=
  repeat match goal with
  | |- built ?w ?w => apply built_refl
  | |- built _ (logged _ _) => eapply built_step; [apply basic_logged|]
  | |- built _ (runUntil _ _) => eapply built_step; [apply basic_runUntil|]
  | |- built _ (toasted _ _ _) => eapply built_step; [apply basic_toasted|]
  | |- built _ (withApp (setCurrentAccount _) _) =>
      eapply built_step; [apply basic_setCurrentAccount|]
  | |- built _ (withApp (setOwner _) _) =>
      eapply built_step; [apply basic_setOwner|]
  | |- built _ (withApp (setMessage _) _) =>
      eapply built_step; [apply basic_setMessage|]
  | |- built _ (withApp (setIsSubmitting _) _) =>
      eapply built_step; [apply basic_setIsSubmitting|]
  | |- built _ (withApp (setIsLoadingMessages _) _) =>
      eapply built_step; [apply basic_setIsLoadingMessages|]
  | |- built _ (withApp (setFilterType _) _) =>
      eapply built_step; [apply basic_setFilterType|]
  | |- built _ (emits _ _) => eapply built_trans; [|apply built_emits]
  | |- built _ (fetchFailed _ _) => unfold fetchFailed
  | |- built _ (postFailed _ _) => unfold postFailed
  end.

Lemma fulfilledValues_length {A} (ps : list (Promise A)) :
  (List.length (fulfilledValues ps) <= List.length ps)%nat.
Proof.
  induction ps as [|p ps IH]; cbn; [lia|].
  destruct (settlement p); cbn; lia.
Qed.

(** What [Promise.all] is fulfilled with has as many values as there are
    promises. *)
Lemma Promise_all_length {A} (ps : list (Promise A)) (results : list A) :
  settlement (Promise_all ps) = Fulfilled results ->
  (List.length results <= List.length ps)%nat.
Proof.
  unfold Promise_all. destruct (firstRejection ps) as [[t e]|]; cbn.
  - discriminate.
  - intros [= <-]. apply fulfilledValues_length.
Qed.

Lemma window_size (count : Z) :
  (Z.to_nat (count - Z.max 0 (count - 50)) <= 50)%nat.
Proof. lia. Qed.

Lemma getAllMessages_built env w : built w (snd (getAllMessages env w)).
Proof.
  destruct (ethereum env) eqn:Heth.
  - rewrite getAllMessages_run by assumption. cbv zeta. cbn [snd].
    destruct (outcome _) as [count|e]; [|build].
    destruct (settlement _) as [results|e] eqn:Hres; [|build].
    build.
    eapply built_step; [apply basic_setAllMessages|build].
    apply Promise_all_length in Hres.
    rewrite !length_map, countdown_length in *.
    pose proof (window_size count). lia.
  - rewrite getAllMessages_absent by assumption. cbn [snd]. build.
Qed.

Lemma postMessage_built env w : built w (snd (postMessage env w)).
Proof.
  destruct (falsy (trim (message (app w)))) eqn:Hb.
  - rewrite postMessage_blank by assumption. cbn [snd]. build.
  - destruct (ethereum env) eqn:Heth.
    + rewrite postMessage_run by assumption. cbv zeta. cbn [snd].
      destruct (outcome _); [destruct (outcome _); [destruct (outcome _)|]|];
        build.
      eapply built_trans; [|apply getAllMessages_built]. build.
    + rewrite postMessage_absent by assumption. cbn [snd]. build.
Qed.

Lemma Step_built env w w' : Step env w w' -> built w w'.
Proof.
  intros [ ].
  - destruct (ethereum env) eqn:Heth.
    + rewrite connectWallet_run by assumption. cbv zeta. cbn [snd].
      destruct (outcome _); build.
    + rewrite connectWallet_absent by assumption. cbn [snd]. build.
  - destruct (ethereum env) eqn:Heth.
    + rewrite checkIfWalletIsConnected_run by assumption. cbv zeta. cbn [snd].
      destruct (outcome _) as [[|a l]|e]; build.
    + rewrite checkIfWalletIsConnected_absent by assumption. cbn [snd]. build.
  - destruct (ethereum env) eqn:Heth.
    + rewrite getOwner_run by assumption. cbv zeta. cbn [snd].
      destruct (outcome _); build.
    + rewrite getOwner_absent by assumption. cbn [snd]. build.
  - apply getAllMessages_built.
  - apply postMessage_built.
  - rewrite copyAddress_run. cbn [snd]. build.
  - rewrite accountsChanged_run. destruct (ethereum env); build.
  - build.
  - build.
  - unfold elapse. build.
Qed.

(** A property that holds initially and that the elementary changes
    preserve holds in every reachable world. *)
Lemma reachable_ind_basic (I : World -> Prop) env :
  I initialWorld ->
  (forall w w', I w -> basic w w' -> I w') ->
  forall w, reachable env w -> I w.
Proof.
  intros Hinit Hbasic w Hreach.
  induction Hreach as [|w w' _ IH Hstep]; [exact Hinit|].
  apply Step_built in Hstep.
  induction Hstep as [|w1 w2 w3 Hb _ IH2]; [exact IH|].
  eapply Hbasic; [apply IH2, IH|exact Hb].
Qed.

(* ===================================================================== *)
(** * Invariants of the reachable worlds *)
(* ===================================================================== *)

Lemma basic_feed_bound w w' :
  basic w w' ->
  (List.length (allMessages (app w)) <= 50)%nat ->
  (List.length (allMessages (app w')) <= 50)%nat.
Proof.
  intros [ ] Hw; cells; assumption.
Qed.

Lemma basic_owned w w' : basic w w' -> timersOwned w -> timersOwned w'.
Proof.
  intros [ ] Hw;
    auto using logged_owned, runUntil_owned, toasted_owned, withApp_owned.
Qed.

Lemma filter_length_le {A} (f : A -> bool) (l : list A) :
  (List.length (filter f l) <= List.length l)%nat.
Proof. induction l as [|x l IH]; cbn; [lia|]. destruct (f x); cbn; lia. Qed.

Lemma runUntil_expires t w : toastExpires w -> toastExpires (runUntil t w).
Proof.
  intros (Hlen & Hshow & Hhidden). split; [|split].
  - unfold runUntil; cbn [timers].
    pose proof (filter_length_le (fun tm => negb (isDue t tm)) (timers w)). lia.
  - rewrite runUntil_app, runUntil_now. unfold runUntil; cbn [timers].
    destruct (filter (isDue t) (timers w)) as [|x l] eqn:Hdue.
    + intros Hs. destruct (Hshow Hs) as (h & d & Ht & Hd).
      exists h, d. rewrite Ht in *. cbn [filter] in *.
      destruct (isDue t (h, d)); [discriminate|]. cbn. split; [reflexivity|lia].
    + cbn. discriminate.
  - rewrite runUntil_app. unfold runUntil; cbn [timers].
    destruct (filter (isDue t) (timers w)) as [|x l] eqn:Hdue.
    + intros Hs. rewrite (Hhidden Hs). reflexivity.
    + intros _. destruct (timers w) as [|y [|z r]]; [reflexivity| |cbn in Hlen; lia].
      cbn [filter] in *. destruct (isDue t y); [reflexivity|discriminate].
Qed.

Lemma toasted_expires ty m w : timersOwned w -> toastExpires (toasted ty m w).
Proof.
  intros Hown. unfold toastExpires. rewrite (toasted_timers ty m w Hown).
  split; [cbn; lia|]. split.
  - intros _. exists (nextHandle w), (now w + 3000)%N.
    split; [reflexivity|]. cbn. lia.
  - cbn. discriminate.
Qed.

Lemma basic_expires w w' :
  basic w w' -> timersOwned w /\ toastExpires w -> timersOwned w' /\ toastExpires w'.
Proof.
  intros Hb [Hown Hexp]. split; [exact (basic_owned w w' Hb Hown)|].
  destruct Hb; try exact Hexp.
  - apply runUntil_expires, Hexp.
  - apply toasted_expires, Hown.
Qed.

Lemma reachable_expires env w :
  reachable env w -> timersOwned w /\ toastExpires w.
Proof.
  revert w.
  apply (reachable_ind_basic (fun w => timersOwned w /\ toastExpires w) env).
  - split; [apply initialWorld_owned|].
    split; [cbn; lia|]. split; [cbn; discriminate|reflexivity].
  - intros w0 w' H Hb. exact (basic_expires w0 w' Hb H).
Qed.

Lemma reachable_feed_bound env w :
  reachable env w -> (List.length (allMessages (app w)) <= 50)%nat.
Proof.
  revert w.
  apply (reachable_ind_basic
           (fun w => (List.length (allMessages (app w)) <= 50)%nat) env).
  - cbn. lia.
  - intros w0 w' H Hb. exact (basic_feed_bound w0 w' Hb H).
Qed.

Lemma getAllMessages_flags env w :
  isLoadingMessages (app w) = false ->
  isLoadingMessages (app (snd (getAllMessages env w))) = false.
Proof.
  intros Hw. destruct (ethereum env) eqn:Heth.
  - rewrite getAllMessages_run by assumption. cbv zeta. cbn [snd].
    destruct (outcome _); [destruct (settlement _)|]; reflexivity.
  - rewrite getAllMessages_absent by assumption. exact Hw.
Qed.

Lemma Step_flags env w w' :
  Step env w w' ->
  isSubmitting (app w) = false /\ isLoadingMessages (app w) = false ->
  isSubmitting (app w') = false /\ isLoadingMessages (app w') = false.
Proof.
  intros [ ] [Hs Hl].
  - destruct (ethereum env) eqn:Heth.
    + rewrite connectWallet_run by assumption. cbv zeta. cbn [snd].
      destruct (outcome _); cells; auto.
    + rewrite connectWallet_absent by assumption. cbn. auto.
  - destruct (ethereum env) eqn:Heth.
    + rewrite checkIfWalletIsConnected_run by assumption. cbv zeta. cbn [snd].
      destruct (outcome _) as [[|a l]|e]; cells; auto.
    + rewrite checkIfWalletIsConnected_absent by assumption. cbn. auto.
  - destruct (ethereum env) eqn:Heth.
    + rewrite getOwner_run by assumption. cbv zeta. cbn [snd].
      destruct (outcome _); cells; auto.
    + rewrite getOwner_absent by assumption. cbn. auto.
  - split; [|apply getAllMessages_flags, Hl].
    destruct (getAllMessages_bystanders env w0) as (_ & _ & _ & -> & _). exact Hs.
  - destruct (falsy (trim (message (app w0)))) eqn:Hb.
    + rewrite postMessage_blank by assumption. cbn. auto.
    + destruct (ethereum env) eqn:Heth.
      * rewrite postMessage_run by assumption. cbv zeta. cbn [snd].
        destruct (outcome _); [destruct (outcome _); [destruct (outcome _)|]|];
          unfold postFailed; cells; auto.
        split; [reflexivity|]. apply getAllMessages_flags. cells. exact Hl.
      * rewrite postMessage_absent by assumption. cbn. auto.
  - rewrite copyAddress_run. cbn. auto.
  - rewrite accountsChanged_run. destruct (ethereum env); cbn; auto.
  - cbn. auto.
  - cbn. auto.
  - unfold elapse. cells. auto.
Qed.

(* ===================================================================== *)
(** * The display utilities *)
(* ===================================================================== *)

Lemma falsy_false_iff (s : jsstring) : falsy s = false <-> s <> [].
Proof. destruct s; cbn; split; congruence. Qed.

(** X1.  On a non-empty address [shortenAddress] returns its first six
    code units, three dots and its last four code units (fewer when the
    address is shorter, and then the two parts overlap); from six code
    units on the result is 13 code units long. *)
Theorem shortenAddress_shape (address : jsstring) :
  address <> [] ->
  shortenAddress address =
    firstn 6 address ++ lit "..." ++ skipn (List.length address - 4) address /\
  ((6 <= List.length address)%nat ->
   List.length (shortenAddress address) = 13%nat).
Proof.
  intros Hne. unfold shortenAddress.
  rewrite (proj2 (falsy_false_iff address) Hne).
  assert (Hhead : slice address 0 (Some 6%Z) = firstn 6 address).
  { unfold slice. cbn [Z.ltb Z.compare]. 
    replace (Z.min 0 (Z.of_nat (List.length address))) with 0%Z by lia.
    cbn [Z.to_nat skipn].
    destruct (Z.min_spec 6 (Z.of_nat (List.length address))) as [[Hlt ->]|[Hge ->]].
    - reflexivity.
    - replace (Z.to_nat (Z.max (Z.of_nat (List.length address) - 0) 0))
        with (List.length address) by lia.
      rewrite firstn_all. symmetry. apply firstn_all2. lia. }
  assert (Htail : slice address (-4) None
                  = skipn (List.length address - 4) address).
  { unfold slice. cbn [Z.ltb Z.compare].
    set (len := Z.of_nat (List.length address)).
    assert (Hlen : (len <? 0)%Z = false) by (apply Z.ltb_ge; lia).
    rewrite Hlen.
    replace (Z.to_nat (Z.max (len + -4) 0)) with (List.length address - 4)%nat by lia.
    apply firstn_all2. rewrite length_skipn. lia. }
  rewrite Hhead, Htail. split; [reflexivity|].
  intros Hlen. rewrite !length_app, length_firstn, length_skipn.
  change (List.length (lit "...")) with 3%nat. lia.
Qed.

Lemma shortenAddress_shape_witness :
  alice <> [] /\
  shortenAddress alice =
    firstn 6 alice ++ lit "..." ++ skipn (List.length alice - 4) alice /\
  ((6 <= List.length alice)%nat -> List.length (shortenAddress alice) = 13%nat).
Proof.
  assert (H : alice <> []) by (vm_compute; discriminate).
  split; [exact H|]. apply (shortenAddress_shape alice H).
Defined.

Example shorten_short_address :
  shortenAddress (lit "0x12") = lit "0x12...0x12".
Proof. vm_compute. reflexivity. Qed.

(** ** The colour channels *)

Lemma land_255 (a : Z) : Z.land a 255 = (a mod 256)%Z.
Proof. change 255%Z with (Z.ones 8). rewrite Z.land_ones by lia. reflexivity. Qed.

Lemma wrap32_mod256 (z : Z) : (wrap32 z mod 256 = z mod 256)%Z.
Proof.
  unfold wrap32. change (2 ^ 32)%Z with 4294967296%Z.
  change (2 ^ 31)%Z with 2147483648%Z.
  destruct (z mod 4294967296 <? 2147483648)%Z;
    Z.div_mod_to_equations; lia.
Qed.

Lemma wrap32_shift_mod256 (z : Z) (k : Z) :
  (k = 8 \/ k = 16)%Z ->
  ((wrap32 z / 2 ^ k) mod 256 = (z / 2 ^ k) mod 256)%Z.
Proof.
  unfold wrap32. change (2 ^ 32)%Z with 4294967296%Z.
  change (2 ^ 31)%Z with 2147483648%Z.
  intros [-> | ->].
  - change (2 ^ 8)%Z with 256%Z.
    destruct (z mod 4294967296 <? 2147483648)%Z;
      Z.div_mod_to_equations; lia.
  - change (2 ^ 16)%Z with 65536%Z.
    destruct (z mod 4294967296 <? 2147483648)%Z;
      Z.div_mod_to_equations; lia.
Qed.

(** The value of a colour channel, read off the parsed number. *)
Lemma band_sar (z : Z) (k : Z) :
  (k = 8 \/ k = 16)%Z ->
  band (sar (Int z) k) 255 = ((z / 2 ^ k) mod 256)%Z.
Proof.
  intros Hk. unfold band, sar, ToInt32.
  change (wrap32 255) with 255%Z. rewrite land_255, wrap32_mod256.
  replace (k mod 32)%Z with k by (destruct Hk as [-> | ->]; reflexivity).
  rewrite Z.shiftr_div_pow2 by lia.
  apply wrap32_shift_mod256, Hk.
Qed.

Lemma band_low (z : Z) : band (ToInt32 (Int z)) 255 = (z mod 256)%Z.
Proof.
  unfold band, ToInt32. change (wrap32 255) with 255%Z.
  rewrite land_255, !wrap32_mod256. reflexivity.
Qed.

Lemma channel_range (hash : Number) :
  (0 <= band (sar hash 16) 255 <= 255)%Z /\
  (0 <= band (sar hash 8) 255 <= 255)%Z /\
  (0 <= band (ToInt32 hash) 255 <= 255)%Z.
Proof.
  destruct hash as [|z].
  - vm_compute. repeat split; discriminate.
  - rewrite !band_sar, band_low by auto.
    repeat split; Z.div_mod_to_equations; lia.
Qed.

Lemma gradient_css (address : jsstring) :
  address <> [] ->
  let hash := parseInt16 (slice address 2 (Some 10%Z)) in
  let r := band (sar hash 16) 255 in
  let g := band (sar hash 8) 255 in
  let b := band (ToInt32 hash) 255 in
  generateAvatarGradient address =
  lit "linear-gradient(135deg, " ++ rgb r g b ++ lit ", "
    ++ rgb (255 - r) (255 - g) (255 - b) ++ lit ")".
Proof.
  intros Hne. cbv zeta. unfold generateAvatarGradient.
  rewrite (proj2 (falsy_false_iff address) Hne). unfold rgb.
  change (lit "linear-gradient(135deg, rgb(")
    with (lit "linear-gradient(135deg, " ++ lit "rgb(").
  change (lit "), rgb(") with (lit ")" ++ lit ", " ++ lit "rgb(").
  change (lit "))") with (lit ")" ++ lit ")").
  repeat rewrite <- app_assoc. reflexivity.
Qed.

(** X2.  On a non-empty address the gradient is made of one colour
    [rgb(r,g,b)] with all three channels between 0 and 255, and of its
    complement [rgb(255-r,255-g,255-b)]; this also holds when the
    characters after the prefix are no hexadecimal number, or one with
    its top bit set. *)
Theorem gradient_is_two_complementary_colours (address : jsstring) :
  address <> [] ->
  exists r g b,
    (0 <= r <= 255)%Z /\ (0 <= g <= 255)%Z /\ (0 <= b <= 255)%Z /\
    generateAvatarGradient address =
    lit "linear-gradient(135deg, " ++ rgb r g b ++ lit ", "
      ++ rgb (255 - r) (255 - g) (255 - b) ++ lit ")".
Proof.
  intros Hne.
  destruct (channel_range (parseInt16 (slice address 2 (Some 10%Z))))
    as (Hr & Hg & Hb).
  eexists _, _, _. split; [exact Hr|]. split; [exact Hg|]. split; [exact Hb|].
  apply (gradient_css address Hne).
Qed.

Lemma gradient_is_two_complementary_colours_witness :
  alice <> [] /\
  exists r g b,
    (0 <= r <= 255)%Z /\ (0 <= g <= 255)%Z /\ (0 <= b <= 255)%Z /\
    generateAvatarGradient alice =
    lit "linear-gradient(135deg, " ++ rgb r g b ++ lit ", "
      ++ rgb (255 - r) (255 - g) (255 - b) ++ lit ")".
Proof.
  assert (H : alice <> []) by (vm_compute; discriminate).
  split; [exact H|]. apply (gradient_is_two_complementary_colours alice H).
Defined.

(** ** [parseInt] with its tests on code units spelled out *)

Ltac split_pos :=
  try reflexivity;
  try match goal with
      | p : positive |- _ => destruct p as [p|p|]
      end.

Lemma parseInt16_eqb (s : jsstring) :
  parseInt16 s =
  let s1 := trimStart s in
  let sign :=
    match s1 with
    | c :: _ => if (c =? 45)%N then (-1)%Z else 1%Z
    | [] => 1%Z
    end in
  let s2 :=
    match s1 with
    | c :: r => if ((c =? 45) || (c =? 43))%N then r else s1
    | [] => s1
    end in
  let s3 :=
    match s2 with
    | c1 :: c2 :: r =>
        if ((c1 =? 48) && ((c2 =? 120) || (c2 =? 88)))%N then r else s2
    | _ => s2
    end in
  match hexPrefix s3 0 0 with
  | (O, _) => NaN
  | (_, v) => Int (sign * v)
  end.
Proof.
  pose (sgn := fun s1 : jsstring =>
    match s1 with
    | 45%N :: r => ((-1)%Z, r)
    | 43%N :: r => (1%Z, r)
    | _ => (1%Z, s1)
    end).
  pose (pre := fun s2 : jsstring =>
    match s2 with
    | 48%N :: 120%N :: r => r
    | 48%N :: 88%N :: r => r
    | _ => s2
    end).
  change (parseInt16 s) with
    (let '(sign, s2) := sgn (trimStart s) in
     match hexPrefix (pre s2) 0 0 with
     | (O, _) => NaN
     | (_, v) => Int (sign * v)
     end).
  assert (Hsgn : forall s1, sgn s1 =
    match s1 with
    | c :: r =>
        if (c =? 45)%N then ((-1)%Z, r)
        else if (c =? 43)%N then (1%Z, r) else (1%Z, s1)
    | [] => (1%Z, s1)
    end).
  { intros [|c r]; [reflexivity|]. unfold sgn.
    destruct c as [|p]; [reflexivity|]. do 7 split_pos; reflexivity. }
  assert (Hpre : forall s2, pre s2 =
    match s2 with
    | c1 :: c2 :: r =>
        if ((c1 =? 48) && ((c2 =? 120) || (c2 =? 88)))%N then r else s2
    | _ => s2
    end).
  { intros [|c1 [|c2 r]]; [reflexivity| |]; unfold pre.
    - destruct c1 as [|p]; [reflexivity|]. do 7 split_pos; reflexivity.
    - destruct c1 as [|p]; [reflexivity|]. do 7 split_pos; try reflexivity.
      destruct c2 as [|q]; [reflexivity|]. do 8 split_pos; reflexivity. }
  clearbody sgn pre. cbv zeta. rewrite Hsgn.
  destruct (trimStart s) as [|c r]; [rewrite Hpre; reflexivity|].
  destruct (c =? 45)%N; [rewrite Hpre; reflexivity|].
  destruct (c =? 43)%N; rewrite Hpre; reflexivity.
Qed.

(** ** Lower-casing and the reading of hexadecimal digits *)

Ltac cmp :=
  repeat (match goal with
          | |- context [(?a <=? ?b)%N] => destruct (N.leb_spec a b)
          | |- context [(?a =? ?b)%N] => destruct (N.eqb_spec a b)
          end; try (exfalso; lia)).

Lemma asciiToLowerCase_map s : asciiToLowerCase s = map lowerUnit s.
Proof. reflexivity. Qed.

Lemma lowerUnit_cases c :
  lowerUnit c = c \/ ((65 <= c <= 90)%N /\ lowerUnit c = (c + 32)%N).
Proof. unfold lowerUnit. cmp; cbn; auto. Qed.

Lemma isWhiteSpace_letter c :
  (65 <= c <= 122)%N -> isWhiteSpace c = false.
Proof. intros H. unfold isWhiteSpace. cmp. reflexivity. Qed.

Lemma isWhiteSpace_lower c : isWhiteSpace (lowerUnit c) = isWhiteSpace c.
Proof.
  destruct (lowerUnit_cases c) as [->|[H ->]]; [reflexivity|].
  rewrite !isWhiteSpace_letter by lia. reflexivity.
Qed.

Lemma eqb_lower c k :
  (k < 65 \/ 122 < k)%N -> (lowerUnit c =? k)%N = (c =? k)%N.
Proof.
  intros Hk. destruct (lowerUnit_cases c) as [->|[H ->]]; [reflexivity|].
  cmp; reflexivity.
Qed.

Lemma eqb_lower_x c :
  ((lowerUnit c =? 120) || (lowerUnit c =? 88))%N = ((c =? 120) || (c =? 88))%N.
Proof.
  destruct (lowerUnit_cases c) as [E|[H E]]; rewrite E.
  - destruct (N.eqb_spec c 88) as [->|]; [discriminate E|]. reflexivity.
  - cmp; reflexivity.
Qed.

Lemma hexDigit_lower c : hexDigit (lowerUnit c) = hexDigit c.
Proof.
  destruct (lowerUnit_cases c) as [->|[H ->]]; [reflexivity|].
  unfold hexDigit. cmp; cbn; try reflexivity. f_equal. lia.
Qed.

Lemma trimStart_lower s :
  trimStart (map lowerUnit s) = map lowerUnit (trimStart s).
Proof.
  induction s as [|c s IH]; [reflexivity|].
  cbn [map trimStart]. rewrite isWhiteSpace_lower.
  destruct (isWhiteSpace c); [exact IH|reflexivity].
Qed.

Lemma hexPrefix_lower s n acc :
  hexPrefix (map lowerUnit s) n acc = hexPrefix s n acc.
Proof.
  revert n acc; induction s as [|c s IH]; intros n acc; [reflexivity|].
  cbn [map hexPrefix]. rewrite hexDigit_lower.
  destruct (hexDigit c); [apply IH|reflexivity].
Qed.

Lemma parseInt16_lower s : parseInt16 (map lowerUnit s) = parseInt16 s.
Proof.
  rewrite !parseInt16_eqb. cbv zeta. rewrite trimStart_lower.
  destruct (trimStart s) as [|c r]; [reflexivity|].
  cbn [map]. rewrite !eqb_lower by lia.
  destruct ((c =? 45) || (c =? 43))%N.
  - destruct r as [|c1 [|c2 r']]; cbn [map]; rewrite ?hexDigit_lower;
      try reflexivity.
    + cbn [hexPrefix]. rewrite hexDigit_lower. reflexivity.
    + rewrite eqb_lower by lia. rewrite eqb_lower_x.
      destruct ((c1 =? 48) && ((c2 =? 120) || (c2 =? 88)))%N.
      * rewrite hexPrefix_lower. reflexivity.
      * change (lowerUnit c1 :: lowerUnit c2 :: map lowerUnit r')
          with (map lowerUnit (c1 :: c2 :: r')).
        rewrite hexPrefix_lower. reflexivity.
  - destruct r as [|c2 r']; cbn [map].
    + cbn [hexPrefix]. rewrite hexDigit_lower. reflexivity.
    + rewrite eqb_lower by lia. rewrite eqb_lower_x.
      destruct ((c =? 48) && ((c2 =? 120) || (c2 =? 88)))%N.
      * rewrite hexPrefix_lower. reflexivity.
      * change (lowerUnit c :: lowerUnit c2 :: map lowerUnit r')
          with (map lowerUnit (c :: c2 :: r')).
        rewrite hexPrefix_lower. reflexivity.
Qed.

Lemma slice_map (f : code_unit -> code_unit) s start end_ :
  slice (map f s) start end_ = map f (slice s start end_).
Proof.
  unfold slice. rewrite length_map, <- firstn_map, <- skipn_map. reflexivity.
Qed.

(** X3.  An address and its lower-cased form have the same gradient:
    the avatar of a checksummed sender and of the same account as the
    wallet reports it coincide. *)
Theorem gradient_ignores_letter_case (address : jsstring) :
  generateAvatarGradient (asciiToLowerCase address)
  = generateAvatarGradient address.
Proof.
  rewrite asciiToLowerCase_map. unfold generateAvatarGradient.
  rewrite slice_map, parseInt16_lower.
  destruct address; reflexivity.
Qed.

(** ** Which characters of the address the gradient reads *)

Lemma hexDigit_range c d : hexDigit c = Some d -> (0 <= d < 16)%Z.
Proof.
  unfold hexDigit. cmp; cbn; intros [= <-]; lia.
Qed.

Lemma isHexDigit_not_special c :
  isHexDigit c = true ->
  isWhiteSpace c = false /\ (c =? 45)%N = false /\ (c =? 43)%N = false /\
  (c =? 120)%N = false /\ (c =? 88)%N = false.
Proof.
  unfold isHexDigit, hexDigit, isWhiteSpace.
  cmp; cbn; try discriminate; intros _; repeat split; cmp; reflexivity.
Qed.

(** On a run of hexadecimal digits, [hexPrefix] reads all of them. *)
Lemma hexPrefix_digits (l : jsstring) :
  forallb isHexDigit l = true ->
  forall n acc,
    hexPrefix l n acc =
    ((n + List.length l)%nat,
     (acc * 16 ^ Z.of_nat (List.length l) + snd (hexPrefix l 0 0))%Z) /\
    (0 <= snd (hexPrefix l 0 0) < 16 ^ Z.of_nat (List.length l))%Z.
Proof.
  induction l as [|c l IH]; intros Hall n acc.
  - cbn. split; [f_equal; lia|lia].
  - cbn [forallb] in Hall. apply andb_true_iff in Hall. destruct Hall as [Hc Hl].
    unfold isHexDigit in Hc. destruct (hexDigit c) as [d|] eqn:Hd; [|discriminate].
    apply hexDigit_range in Hd as Hrange.
    cbn [hexPrefix List.length]. rewrite Hd.
    destruct (IH Hl (S n) (16 * acc + d)%Z) as [-> _].
    destruct (IH Hl 1%nat (16 * 0 + d)%Z) as [-> Hv].
    cbn [snd]. rewrite Nat2Z.inj_succ, Z.pow_succ_r by lia.
    split; [f_equal; [lia|ring]|nia].
Qed.

Lemma slice_window (a0 a1 : code_unit) (body tail : jsstring) :
  List.length body = 8%nat ->
  slice (a0 :: a1 :: body ++ tail) 2 (Some 10%Z) = body.
Proof.
  intros Hlen. unfold slice. cbn [List.length]. rewrite length_app, Hlen.
  cbn [Z.ltb Z.compare].
  replace (Z.min 2 _) with 2%Z by lia. replace (Z.min 10 _) with 10%Z by lia.
  change (Z.to_nat (Z.max (10 - 2) 0)) with 8%nat.
  change (Z.to_nat 2) with 2%nat. cbn [skipn].
  rewrite firstn_app, Hlen, Nat.sub_diag.
  change (firstn 0 tail) with (@nil code_unit).
  rewrite app_nil_r. apply firstn_all2. lia.
Qed.

(** The number read off an address whose characters 2 to 9 are
    hexadecimal digits: the first two of them only contribute above bit
    24. *)
Lemma parseInt16_eight_digits (d0 d1 : code_unit) (digits : jsstring) :
  isHexDigit d0 = true -> isHexDigit d1 = true ->
  List.length digits = 6%nat -> forallb isHexDigit digits = true ->
  exists top : Z,
    parseInt16 (d0 :: d1 :: digits)
    = Int (top * 16777216 + snd (hexPrefix digits 0 0)) /\
    (0 <= snd (hexPrefix digits 0 0) < 16777216)%Z.
Proof.
  intros H0 H1 Hlen Hall.
  destruct (isHexDigit_not_special d0 H0) as (Hws & Hm & Hp & _).
  destruct (isHexDigit_not_special d1 H1) as (_ & _ & _ & Hx & HX).
  rewrite parseInt16_eqb. cbv zeta. cbn [trimStart]. rewrite Hws, Hm, Hp.
  cbn [orb]. rewrite Hx, HX. cbn [orb]. rewrite andb_false_r.
  assert (Hall8 : forallb isHexDigit (d0 :: d1 :: digits) = true)
    by (cbn [forallb]; rewrite H0, H1, Hall; reflexivity).
  destruct (hexPrefix_digits (d0 :: d1 :: digits) Hall8 0%nat 0%Z) as [-> _].
  destruct (hexPrefix_digits digits Hall 0%nat 0%Z) as [_ Hv].
  cbn [List.length Nat.add]. rewrite Hlen in *. cbn [snd].
  unfold isHexDigit in H0, H1.
  destruct (hexDigit d0) as [v0|] eqn:E0; [|discriminate].
  destruct (hexDigit d1) as [v1|] eqn:E1; [|discriminate].
  cbn [hexPrefix]. rewrite E0, E1.
  destruct (hexPrefix_digits digits Hall 2%nat (16 * (16 * 0 + v0) + v1)%Z)
    as [-> _].
  rewrite Hlen. cbn [snd].
  change (16 ^ Z.of_nat 6)%Z with 16777216%Z in *.
  exists (16 * (16 * 0 + v0) + v1)%Z. split; [f_equal; lia|exact Hv].
Qed.

(** X4.  The gradient does not depend on the characters at positions 2
    and 3 of the address: two addresses whose characters 2 to 9 are
    hexadecimal digits and that differ only at positions 2 and 3 have the
    same gradient.  Avatars are therefore not unique per address. *)
Theorem gradient_ignores_top_byte (a0 a1 d0 d1 e0 e1 : code_unit)
    (digits tail : jsstring) :
  isHexDigit d0 = true -> isHexDigit d1 = true ->
  isHexDigit e0 = true -> isHexDigit e1 = true ->
  List.length digits = 6%nat -> forallb isHexDigit digits = true ->
  generateAvatarGradient (a0 :: a1 :: d0 :: d1 :: digits ++ tail)
  = generateAvatarGradient (a0 :: a1 :: e0 :: e1 :: digits ++ tail).
Proof.
  intros Hd0 Hd1 He0 He1 Hlen Hall.
  rewrite !gradient_css by discriminate. cbv zeta.
  change (a0 :: a1 :: d0 :: d1 :: digits ++ tail)
    with (a0 :: a1 :: (d0 :: d1 :: digits) ++ tail).
  change (a0 :: a1 :: e0 :: e1 :: digits ++ tail)
    with (a0 :: a1 :: (e0 :: e1 :: digits) ++ tail).
  rewrite (slice_window a0 a1 (d0 :: d1 :: digits) tail) by (cbn; lia).
  rewrite (slice_window a0 a1 (e0 :: e1 :: digits) tail) by (cbn; lia).
  destruct (parseInt16_eight_digits d0 d1 digits Hd0 Hd1 Hlen Hall)
    as (td & -> & Hlo).
  destruct (parseInt16_eight_digits e0 e1 digits He0 He1 Hlen Hall)
    as (te & -> & _).
  rewrite !band_sar, !band_low by auto.
  set (lo := snd (hexPrefix digits 0 0)) in *.
  change (2 ^ 16)%Z with 65536%Z. change (2 ^ 8)%Z with 256%Z.
  assert (Hr : forall t, ((t * 16777216 + lo) / 65536 mod 256
                          = lo / 65536 mod 256)%Z)
    by (intros t; Z.div_mod_to_equations; lia).
  assert (Hg : forall t, ((t * 16777216 + lo) / 256 mod 256
                          = lo / 256 mod 256)%Z)
    by (intros t; Z.div_mod_to_equations; lia).
  assert (Hb : forall t, ((t * 16777216 + lo) mod 256 = lo mod 256)%Z)
    by (intros t; Z.div_mod_to_equations; lia).
  rewrite !Hr, !Hg, !Hb. reflexivity.
Qed.

Lemma gradient_ignores_top_byte_witness :
  isHexDigit 67%N = true /\ isHexDigit 49%N = true /\
  isHexDigit 48%N = true /\ isHexDigit 48%N = true /\
  List.length (lit "2F1c37") = 6%nat /\
  forallb isHexDigit (lit "2F1c37") = true /\
  generateAvatarGradient
    (48 :: 120 :: 67 :: 49 :: lit "2F1c37" ++ lit "8580e22a")%N
  = generateAvatarGradient
      (48 :: 120 :: 48 :: 48 :: lit "2F1c37" ++ lit "8580e22a")%N.
Proof.
  repeat (split; [reflexivity|]).
  apply (gradient_ignores_top_byte 48%N 120%N 67%N 49%N 48%N 48%N
           (lit "2F1c37") (lit "8580e22a")); reflexivity.
Defined.

Example avatars_collide :
  lit "0xC12F1c378580e22ab3491E055de000FED075E24c"
    <> lit "0x9e2F1c370000000000000000000000000000dEaD" /\
  generateAvatarGradient (lit "0xC12F1c378580e22ab3491E055de000FED075E24c")
  = generateAvatarGradient (lit "0x9e2F1c370000000000000000000000000000dEaD").
Proof. split; [vm_compute; discriminate|vm_compute; reflexivity]. Qed.

(* ===================================================================== *)
(** * Requests and toasts in the traces *)
(* ===================================================================== *)

Lemma sent_app (es tr : list Event) : sent (es ++ tr) = sent es ++ sent tr.
Proof. induction es as [|[] es IH]; cbn; rewrite ?IH; reflexivity. Qed.

Lemma sent_sends (js : list Z) :
  sent (map (fun j => Send (Req_Messages j)) js) = map Req_Messages js.
Proof. induction js as [|j js IH]; cbn; rewrite ?IH; reflexivity. Qed.

Lemma toasts_app (es tr : list Event) : toasts (es ++ tr) = toasts es ++ toasts tr.
Proof. induction es as [|[] es IH]; cbn; rewrite ?IH; reflexivity. Qed.

Lemma toasts_sends (js : list Z) :
  toasts (map (fun j => Send (Req_Messages j)) js) = [].
Proof. induction js; cbn; auto. Qed.

Lemma toasts_rev_sends (js : list Z) :
  toasts (rev (map (fun j => Send (Req_Messages j)) js)) = [].
Proof. rewrite <- map_rev. apply toasts_sends. Qed.

Lemma sent_rev_sends (js : list Z) :
  sent (rev (map (fun j => Send (Req_Messages j)) js))
  = rev (map Req_Messages js).
Proof. rewrite <- !map_rev. apply sent_sends. Qed.

Lemma forallb_isRead_reads (js : list Z) :
  forallb isRead (rev (map Req_Messages js)) = true.
Proof.
  apply forallb_forall. intros r Hr. apply in_rev in Hr.
  apply in_map_iff in Hr. destruct Hr as (j & <- & _). reflexivity.
Qed.

Lemma runUntil_toast_type t w :
  type (toast (app (runUntil t w))) = type (toast (app w)).
Proof. apply (runUntil_cells t w). Qed.

Lemma runUntil_toast_msg t w :
  msg (toast (app (runUntil t w))) = msg (toast (app w)).
Proof. apply (runUntil_cells t w). Qed.

(** The requests of one activation of [getAllMessages]: reads only, the
    count first, then the entries of the window. *)
Lemma getAllMessages_reads env w :
  exists reads,
    sent (trace (snd (getAllMessages env w))) = reads ++ sent (trace w) /\
    forallb isRead reads = true /\
    (List.length reads <= 51)%nat.
Proof.
  destruct (ethereum env) eqn:Heth.
  - rewrite getAllMessages_run by assumption. cbv zeta. cbn [snd].
    destruct (outcome _) as [count|e].
    + exists (rev (map Req_Messages
                (countdown (count - 1) (Z.to_nat (count - Z.max 0 (count - 50)))))
              ++ [Req_getMessagesCount]).
      split; [|split].
      * destruct (settlement _); unfold fetchFailed; cells;
          rewrite sent_app, sent_rev_sends, <- app_assoc; reflexivity.
      * rewrite forallb_app, forallb_isRead_reads. reflexivity.
      * rewrite length_app, length_rev, length_map, countdown_length.
        cbn. lia.
    + exists [Req_getMessagesCount]. unfold fetchFailed. cells.
      repeat split. lia.
  - rewrite getAllMessages_absent by assumption.
    exists []. repeat split. cbn. lia.
Qed.

(** X5.  When the count read returns a [count] within the range in which
    Numbers are exact, [getAllMessages] sends, after the count request,
    one read per index from [count - 1] down to [max 0 (count - 50)], in
    that order and whether or not these reads succeed, and no other
    request. *)
Theorem getAllMessages_requests env w count :
  ethereum env = true ->
  outcome (contract_getMessagesCount env (now w)) = Fulfilled count ->
  (0 <= count <= MAX_SAFE_INTEGER)%Z ->
  let n := Z.to_nat (Z.min count 50) in
  sent (trace (snd (getAllMessages env w))) =
    rev (map Req_Messages (countdown (count - 1) n))
      ++ Req_getMessagesCount :: sent (trace w) /\
  (forall i, In (Req_Messages i) (map Req_Messages (countdown (count - 1) n))
             <-> (Z.max 0 (count - 50) <= i < count)%Z).
Proof.
  intros Heth Hc Hrange n. split.
  - rewrite getAllMessages_run by assumption. cbv zeta. cbn [snd]. rewrite Hc.
    replace (Z.to_nat (count - Z.max 0 (count - 50))) with n by (subst n; lia).
    destruct (settlement _); unfold fetchFailed; cells;
      rewrite sent_app, sent_rev_sends; reflexivity.
  - intros i. rewrite in_map_iff. split.
    + intros (j & [= ->] & Hj). apply countdown_In_iff in Hj. subst n. lia.
    + intros Hi. exists i. split; [reflexivity|].
      apply countdown_In_iff. subst n. lia.
Qed.

Lemma getAllMessages_requests_witness :
  ethereum flakyEnv = true /\
  outcome (contract_getMessagesCount flakyEnv (now initialWorld)) = Fulfilled 3%Z /\
  (0 <= 3 <= MAX_SAFE_INTEGER)%Z /\
  sent (trace (snd (getAllMessages flakyEnv initialWorld))) =
    rev (map Req_Messages (countdown (3 - 1) (Z.to_nat (Z.min 3 50))))
      ++ Req_getMessagesCount :: sent (trace initialWorld) /\
  (forall i,
     In (Req_Messages i)
        (map Req_Messages (countdown (3 - 1) (Z.to_nat (Z.min 3 50))))
     <-> (Z.max 0 (3 - 50) <= i < 3)%Z).
Proof.
  assert (Hrange : (0 <= 3 <= MAX_SAFE_INTEGER)%Z)
    by (unfold MAX_SAFE_INTEGER; lia).
  split; [reflexivity|]. split; [reflexivity|]. split; [exact Hrange|].
  apply (getAllMessages_requests flakyEnv initialWorld 3%Z);
    [reflexivity | reflexivity | exact Hrange].
Defined.

(** X6.  One activation of [getAllMessages] sends at most 51 requests,
    whatever length the log has within the range in which Numbers are
    exact, and all of them are reads. *)
Theorem getAllMessages_request_bound env w :
  safeCountAt env (now w) ->
  let w' := snd (getAllMessages env w) in
  (List.length (sent (trace w')) <= List.length (sent (trace w)) + 51)%nat /\
  (forall r, In r (sent (trace w')) -> isRead r = true \/ In r (sent (trace w))).
Proof.
  intros Hsafe. cbv zeta. destruct (getAllMessages_reads env w) as (reads & -> & Hread & Hlen).
  split.
  - rewrite length_app. lia.
  - intros r Hr. apply in_app_or in Hr. destruct Hr as [Hr|Hr]; [left|right; exact Hr].
    rewrite forallb_forall in Hread. apply Hread, Hr.
Qed.

Lemma getAllMessages_request_bound_witness :
  safeCountAt healthyEnv (now sessionWorld) /\
  (List.length (sent (trace (snd (getAllMessages healthyEnv sessionWorld))))
   <= List.length (sent (trace sessionWorld)) + 51)%nat /\
  (forall r, In r (sent (trace (snd (getAllMessages healthyEnv sessionWorld)))) ->
     isRead r = true \/ In r (sent (trace sessionWorld))).
Proof.
  assert (Hsafe : safeCountAt healthyEnv (now sessionWorld))
    by apply demoEnv_safeCounts.
  split; [exact Hsafe|].
  apply (getAllMessages_request_bound healthyEnv sessionWorld). exact Hsafe.
Defined.

(** X7.  A successful [getAllMessages], for a length of the log within
    the range in which Numbers are exact, records nothing but its
    requests: no toast is emitted, nothing is logged to the console, and
    kind and message of the toast cell and the timer reference are left
    alone. *)
Theorem getAllMessages_success_is_silent env w count (log : Z -> RawMessage) :
  ethereum env = true ->
  outcome (contract_getMessagesCount env (now w)) = Fulfilled count ->
  (0 <= count <= MAX_SAFE_INTEGER)%Z ->
  (forall i, (Z.max 0 (count - 50) <= i < count)%Z ->
     outcome (contract_Messages env
                (now w + latency (contract_getMessagesCount env (now w))) i)
     = Fulfilled (log i)) ->
  let w' := snd (getAllMessages env w) in
  let n := Z.to_nat (Z.min count 50) in
  trace w' =
    rev (map (fun j => Send (Req_Messages j)) (countdown (count - 1) n))
      ++ Send Req_getMessagesCount :: Call H_getAllMessages :: trace w /\
  toasts (trace w') = toasts (trace w) /\
  type (toast (app w')) = type (toast (app w)) /\
  msg (toast (app w')) = msg (toast (app w)) /\
  toastTimeoutRef w' = toastTimeoutRef w.
Proof.
  intros Heth Hc Hrange Hlog. cbv zeta.
  rewrite getAllMessages_run by assumption. cbv zeta. cbn [snd]. rewrite Hc.
  replace (Z.to_nat (count - Z.max 0 (count - 50)))
    with (Z.to_nat (Z.min count 50)) by lia.
  rewrite (Promise_all_fulfilled env _ log)
    by (intros j Hj; apply countdown_In in Hj; apply Hlog; lia).
  cells. rewrite toasts_app, toasts_rev_sends.
  rewrite !runUntil_toast_type, !runUntil_toast_msg. cbn [app emits].
  rewrite !runUntil_toast_type, !runUntil_toast_msg.
  repeat split.
Qed.

Lemma getAllMessages_success_is_silent_witness :
  ethereum healthyEnv = true /\
  outcome (contract_getMessagesCount healthyEnv (now strandedWorld)) = Fulfilled 3%Z /\
  (0 <= 3 <= MAX_SAFE_INTEGER)%Z /\
  (forall i, (Z.max 0 (3 - 50) <= i < 3)%Z ->
     outcome (contract_Messages healthyEnv
                (now strandedWorld
                 + latency (contract_getMessagesCount healthyEnv (now strandedWorld)))
                i)
     = Fulfilled (demoLog i)) /\
  trace (snd (getAllMessages healthyEnv strandedWorld)) =
    rev (map (fun j => Send (Req_Messages j))
           (countdown (3 - 1) (Z.to_nat (Z.min 3 50))))
      ++ Send Req_getMessagesCount :: Call H_getAllMessages
      :: trace strandedWorld /\
  toasts (trace (snd (getAllMessages healthyEnv strandedWorld)))
    = toasts (trace strandedWorld) /\
  type (toast (app (snd (getAllMessages healthyEnv strandedWorld))))
    = type (toast (app strandedWorld)) /\
  msg (toast (app (snd (getAllMessages healthyEnv strandedWorld))))
    = msg (toast (app strandedWorld)) /\
  toastTimeoutRef (snd (getAllMessages healthyEnv strandedWorld))
    = toastTimeoutRef strandedWorld.
Proof.
  assert (Hreads : forall i, (Z.max 0 (3 - 50) <= i < 3)%Z ->
     outcome (contract_Messages healthyEnv
                (now strandedWorld
                 + latency (contract_getMessagesCount healthyEnv (now strandedWorld)))
                i)
     = Fulfilled (demoLog i)) by (intros i Hi; reflexivity).
  assert (Hrange : (0 <= 3 <= MAX_SAFE_INTEGER)%Z)
    by (unfold MAX_SAFE_INTEGER; lia).
  split; [reflexivity|]. split; [reflexivity|]. split; [exact Hrange|].
  split; [exact Hreads|].
  apply (getAllMessages_success_is_silent healthyEnv strandedWorld 3%Z demoLog);
    [reflexivity | reflexivity | exact Hrange | exact Hreads].
Defined.

(* ===================================================================== *)
(** * The wallet session *)
(* ===================================================================== *)

(** X8.  When the connection request is fulfilled, [connectWallet] sets
    the account to the first address of the reply, shows the success
    toast, has sent that one request and leaves owner, input text, feed
    and filter alone.  On an empty reply the account becomes absent and
    the success toast is shown all the same. *)
Theorem connectWallet_granted env w accounts :
  ethereum env = true ->
  outcome (eth_requestAccounts env (now w)) = Fulfilled accounts ->
  let w' := snd (connectWallet env w) in
  fst (connectWallet env w) = Normal tt /\
  currentAccount (app w') = hd_error accounts /\
  toast (app w') =
    {| show := true; type := success;
       msg := lit "Wallet connected successfully" |} /\
  sent (trace w') = Req_eth_requestAccounts :: sent (trace w) /\
  owner (app w') = owner (app w) /\
  message (app w') = message (app w) /\
  allMessages (app w') = allMessages (app w) /\
  filterType (app w') = filterType (app w).
Proof.
  intros Heth Hok. cbv zeta.
  rewrite connectWallet_run by assumption. cbv zeta. rewrite Hok.
  cells. repeat split.
Qed.

Lemma connectWallet_granted_witness :
  ethereum healthyEnv = true /\
  outcome (eth_requestAccounts healthyEnv (now draftWorld)) = Fulfilled [alice] /\
  fst (connectWallet healthyEnv draftWorld) = Normal tt /\
  currentAccount (app (snd (connectWallet healthyEnv draftWorld)))
    = hd_error [alice] /\
  toast (app (snd (connectWallet healthyEnv draftWorld))) =
    {| show := true; type := success;
       msg := lit "Wallet connected successfully" |} /\
  sent (trace (snd (connectWallet healthyEnv draftWorld)))
    = Req_eth_requestAccounts :: sent (trace draftWorld) /\
  owner (app (snd (connectWallet healthyEnv draftWorld))) = owner (app draftWorld) /\
  message (app (snd (connectWallet healthyEnv draftWorld)))
    = message (app draftWorld) /\
  allMessages (app (snd (connectWallet healthyEnv draftWorld)))
    = allMessages (app draftWorld) /\
  filterType (app (snd (connectWallet healthyEnv draftWorld)))
    = filterType (app draftWorld).
Proof.
  split; [reflexivity|]. split; [reflexivity|].
  apply (connectWallet_granted healthyEnv draftWorld [alice]); reflexivity.
Defined.

(** X9.  [checkIfWalletIsConnected] never throws and never emits a
    toast.  The account becomes the first address of a non-empty reply;
    with no provider, on an empty reply and on a rejection it is left as
    it was. *)
Theorem checkIfWalletIsConnected_silent env w :
  let w' := snd (checkIfWalletIsConnected env w) in
  fst (checkIfWalletIsConnected env w) = Normal tt /\
  toasts (trace w') = toasts (trace w) /\
  toastTimeoutRef w' = toastTimeoutRef w /\
  (forall a l,
     ethereum env = true ->
     outcome (eth_accounts env (now w)) = Fulfilled (a :: l) ->
     currentAccount (app w') = Some a) /\
  (ethereum env = false \/
   outcome (eth_accounts env (now w)) = Fulfilled [] \/
   (exists e, outcome (eth_accounts env (now w)) = Rejected e) ->
   currentAccount (app w') = currentAccount (app w)).
Proof.
  cbv zeta. destruct (ethereum env) eqn:Heth.
  - rewrite checkIfWalletIsConnected_run by assumption. cbv zeta. cbn [fst snd].
    destruct (outcome (eth_accounts env (now w))) as [[|a l]|e]; cells;
      repeat split;
      try (intros a' l' _ [=]; congruence);
      try (intros [H|[H|[e' H]]]; congruence).
  - rewrite checkIfWalletIsConnected_absent by assumption. cbn.
    repeat split. intros a l [=].
Qed.

(** X10.  [getOwner] never throws and never emits a toast.  On a
    fulfilled read the owner is the address read; on a rejected read the
    owner is left as it was and the error goes to the console; with no
    provider nothing is sent. *)
Theorem getOwner_degrades_quietly env w :
  let w' := snd (getOwner env w) in
  fst (getOwner env w) = Normal tt /\
  toasts (trace w') = toasts (trace w) /\
  (forall ownerAddress,
     ethereum env = true ->
     outcome (contract_owner env (now w)) = Fulfilled ownerAddress ->
     owner (app w') = Some ownerAddress) /\
  (forall e,
     ethereum env = true ->
     outcome (contract_owner env (now w)) = Rejected e ->
     owner (app w') = owner (app w) /\
     trace w' = ConsoleError e :: Send Req_owner :: Call H_getOwner :: trace w) /\
  (ethereum env = false -> owner (app w') = owner (app w) /\
                           sent (trace w') = sent (trace w)).
Proof.
  cbv zeta. destruct (ethereum env) eqn:Heth.
  - rewrite getOwner_run by assumption. cbv zeta. cbn [fst snd].
    destruct (outcome (contract_owner env (now w))) as [o|e]; cells;
      repeat split;
      try (intros o' _ [=]; congruence);
      try (intros e' _ [= <-]; reflexivity);
      try discriminate; try congruence.
  - rewrite getOwner_absent by assumption. cbn.
    repeat split; discriminate.
Qed.


(* ===================================================================== *)
(** * More on the write path *)
(* ===================================================================== *)

Lemma reads_are_not_writes (rs : list Request) :
  forallb isRead rs = true -> existsb isWrite rs = false.
Proof.
  induction rs as [|r rs IH]; [reflexivity|].
  cbn [forallb existsb]. intros H. apply andb_true_iff in H. destruct H as [Hr Hrs].
  rewrite (IH Hrs). destruct r; try discriminate; reflexivity.
Qed.

(** X11.  Once a signer is obtained, [postMessage] submits the input
    text as typed, white space at its ends included (only the test for an
    empty message trims it), and it submits it once: no later request of
    the activation is a write. *)
Theorem postMessage_sends_text_verbatim env w signer :
  ethereum env = true ->
  falsy (trim (message (app w))) = false ->
  outcome (provider_getSigner env (now w)) = Fulfilled signer ->
  exists later,
    sent (trace (snd (postMessage env w))) =
      later ++ Req_postMessage (message (app w)) :: Req_getSigner
        :: sent (trace w) /\
    existsb isWrite later = false.
Proof.
  intros Heth Hne Hs.
  rewrite postMessage_run by assumption. cbv zeta. cbn [snd]. rewrite Hs.
  destruct (outcome (contract_postMessage env _ signer _)) as [tx|e].
  - destruct (outcome (tx_wait env _ tx)) as [[]|e].
    + match goal with
      | |- context [getAllMessages env ?w0] =>
          destruct (getAllMessages_reads env w0) as (reads & Hreads & Hr & _)
      end.
      exists (reads ++ [Req_wait tx]). split.
      * cbn [trace withApp toasted sent]. rewrite Hreads. cells.
        rewrite <- app_assoc. reflexivity.
      * rewrite existsb_app, (reads_are_not_writes reads Hr). reflexivity.
    + exists [Req_wait tx]. unfold postFailed. cells. split; reflexivity.
  - exists []. unfold postFailed. cells. split; reflexivity.
Qed.

Lemma postMessage_sends_text_verbatim_witness :
  ethereum healthyEnv = true /\
  falsy (trim (message (app paddedWorld))) = false /\
  outcome (provider_getSigner healthyEnv (now paddedWorld)) = Fulfilled alice /\
  exists later,
    sent (trace (snd (postMessage healthyEnv paddedWorld))) =
      later ++ Req_postMessage (message (app paddedWorld)) :: Req_getSigner
        :: sent (trace paddedWorld) /\
    existsb isWrite later = false.
Proof.
  split; [reflexivity|]. split; [reflexivity|]. split; [reflexivity|].
  apply (postMessage_sends_text_verbatim healthyEnv paddedWorld alice);
    reflexivity.
Defined.

Example padded_text_is_sent_as_typed :
  In (Req_postMessage (lit "  gm "))
     (sent (trace (snd (postMessage healthyEnv paddedWorld)))).
Proof. vm_compute. tauto. Qed.

(** X12.  When no signer is obtained, [postMessage] sends no request but
    the one for the signer: no transaction is submitted, the error goes to
    the console and the error toast is shown. *)
Theorem postMessage_without_signer env w e :
  ethereum env = true ->
  falsy (trim (message (app w))) = false ->
  outcome (provider_getSigner env (now w)) = Rejected e ->
  let w' := snd (postMessage env w) in
  sent (trace w') = Req_getSigner :: sent (trace w) /\
  trace w' =
    Toast error (lit "Transaction failed. Check console.") :: ConsoleError e
      :: Send Req_getSigner :: Call H_postMessage :: trace w.
Proof.
  intros Heth Hne Hs. cbv zeta.
  rewrite postMessage_run by assumption. cbv zeta. cbn [snd]. rewrite Hs.
  unfold postFailed. cells. split; reflexivity.
Qed.

Lemma postMessage_without_signer_witness :
  ethereum lockedEnv = true /\
  falsy (trim (message (app readyWorld))) = false /\
  outcome (provider_getSigner lockedEnv (now readyWorld)) = Rejected (Err 4100) /\
  sent (trace (snd (postMessage lockedEnv readyWorld)))
    = Req_getSigner :: sent (trace readyWorld) /\
  trace (snd (postMessage lockedEnv readyWorld)) =
    Toast error (lit "Transaction failed. Check console.")
      :: ConsoleError (Err 4100) :: Send Req_getSigner :: Call H_postMessage
      :: trace readyWorld.
Proof.
  split; [reflexivity|]. split; [reflexivity|]. split; [reflexivity|].
  apply (postMessage_without_signer lockedEnv readyWorld (Err 4100));
    reflexivity.
Defined.

(** X13.  A failed submission does not refresh the feed:
    [getAllMessages] is not activated, no read request is sent, and the
    feed and the loading flag are as before. *)
Theorem postMessage_failure_skips_refresh env w e :
  ethereum env = true ->
  falsy (trim (message (app w))) = false ->
  postFails env w e ->
  let w' := snd (postMessage env w) in
  calls (trace w') = H_postMessage :: calls (trace w) /\
  allMessages (app w') = allMessages (app w) /\
  isLoadingMessages (app w') = isLoadingMessages (app w) /\
  (forall r, In r (sent (trace w')) -> isRead r = true -> In r (sent (trace w))).
Proof.
  intros Heth Hne Hfail. cbv zeta.
  rewrite postMessage_run by assumption. cbv zeta. cbn [snd].
  destruct Hfail as [e He | signer e rs Hs He | signer tx e rs t1 rp Hs Hp He].
  - rewrite He. unfold postFailed. cells. repeat split.
    intros r [<-|Hr] Hread; [discriminate|exact Hr].
  - subst rs. rewrite Hs, He. unfold postFailed. cells. repeat split.
    intros r [<-|[<-|Hr]] Hread; try discriminate; exact Hr.
  - subst rs t1 rp. rewrite Hs, Hp, He. unfold postFailed. cells. repeat split.
    intros r [<-|[<-|[<-|Hr]]] Hread; try discriminate; exact Hr.
Qed.

Lemma postMessage_failure_skips_refresh_witness :
  ethereum revertEnv = true /\
  falsy (trim (message (app readyWorld))) = false /\
  postFails revertEnv readyWorld (Err 3) /\
  calls (trace (snd (postMessage revertEnv readyWorld)))
    = H_postMessage :: calls (trace readyWorld) /\
  allMessages (app (snd (postMessage revertEnv readyWorld)))
    = allMessages (app readyWorld) /\
  isLoadingMessages (app (snd (postMessage revertEnv readyWorld)))
    = isLoadingMessages (app readyWorld) /\
  (forall r, In r (sent (trace (snd (postMessage revertEnv readyWorld)))) ->
             isRead r = true -> In r (sent (trace readyWorld))).
Proof.
  assert (Hfail : postFails revertEnv readyWorld (Err 3)).
  { apply (@confirmation_failed revertEnv readyWorld alice 77%N (Err 3));
      reflexivity. }
  split; [reflexivity|]. split; [reflexivity|]. split; [exact Hfail|].
  apply (postMessage_failure_skips_refresh revertEnv readyWorld (Err 3));
    [reflexivity | reflexivity | exact Hfail].
Defined.

(** X14.  As long as the length of the log that the node reports stays
    within the range in which Numbers are exact, [postMessage] completes
    without throwing, however its requests settle, and leaves account,
    owner and filter alone; the input text is either as before or empty. *)
Theorem postMessage_bystanders env w :
  safeCounts env ->
  let w' := snd (postMessage env w) in
  fst (postMessage env w) = Normal tt /\
  currentAccount (app w') = currentAccount (app w) /\
  owner (app w') = owner (app w) /\
  filterType (app w') = filterType (app w) /\
  (message (app w') = message (app w) \/ message (app w') = lit "").
Proof.
  intros Hsafe. cbv zeta. destruct (falsy (trim (message (app w)))) eqn:Hb.
  - rewrite postMessage_blank by assumption. cbn. auto 6.
  - destruct (ethereum env) eqn:Heth.
    + rewrite postMessage_run by assumption. cbv zeta. cbn [fst snd].
      destruct (outcome _); [destruct (outcome _); [destruct (outcome _)|]|];
        unfold postFailed; cells; auto 6.
      match goal with
      | |- context [getAllMessages env ?w0] =>
          destruct (getAllMessages_bystanders env w0) as (-> & -> & -> & _ & -> & _)
      end.
      cells. auto 6.
    + rewrite postMessage_absent by assumption. cbn. auto 6.
Qed.

Lemma postMessage_bystanders_witness :
  safeCounts healthyEnv /\
  fst (postMessage healthyEnv connectedWorld) = Normal tt /\
  currentAccount (app (snd (postMessage healthyEnv connectedWorld)))
    = currentAccount (app connectedWorld) /\
  owner (app (snd (postMessage healthyEnv connectedWorld)))
    = owner (app connectedWorld) /\
  filterType (app (snd (postMessage healthyEnv connectedWorld)))
    = filterType (app connectedWorld) /\
  (message (app (snd (postMessage healthyEnv connectedWorld)))
     = message (app connectedWorld) \/
   message (app (snd (postMessage healthyEnv connectedWorld))) = lit "").
Proof.
  assert (Hsafe : safeCounts healthyEnv) by apply demoEnv_safeCounts.
  split; [exact Hsafe|].
  apply (postMessage_bystanders healthyEnv connectedWorld). exact Hsafe.
Defined.

(** ** Which input texts are refused *)

Lemma trimStart_head (s : jsstring) :
  trimStart s = [] \/
  exists c r, trimStart s = c :: r /\ isWhiteSpace c = false.
Proof.
  induction s as [|c s IH]; [left; reflexivity|].
  cbn [trimStart]. destruct (isWhiteSpace c) eqn:Hc; [exact IH|].
  right. exists c, s. split; [reflexivity|exact Hc].
Qed.

Lemma trimStart_nil_iff (s : jsstring) : trimStart s = [] <-> blank s = true.
Proof.
  unfold blank. induction s as [|c s IH]; [split; reflexivity|].
  cbn [trimStart forallb]. destruct (isWhiteSpace c); cbn [andb].
  - exact IH.
  - split; discriminate.
Qed.

Lemma blank_rev (s : jsstring) : blank (rev s) = blank s.
Proof.
  unfold blank. induction s as [|c s IH]; [reflexivity|].
  cbn [rev forallb]. rewrite forallb_app, IH. cbn. rewrite andb_true_r.
  apply andb_comm.
Qed.

(** [trim] leaves nothing exactly when the string is white space only. *)
Lemma trim_nil_iff (s : jsstring) : trim s = [] <-> blank s = true.
Proof.
  unfold trim, trimEnd. split.
  - intros H. apply (f_equal (@rev code_unit)) in H.
    rewrite rev_involutive in H. cbn [rev] in H.
    apply trimStart_nil_iff in H. rewrite blank_rev in H.
    destruct (trimStart_head s) as [E|(c & r & E & Hc)].
    + apply trimStart_nil_iff, E.
    + rewrite E in H. unfold blank in H. cbn [forallb] in H.
      rewrite Hc in H. discriminate H.
  - intros H. apply trimStart_nil_iff in H. rewrite H. reflexivity.
Qed.

Lemma falsy_trim_blank (s : jsstring) : falsy (trim s) = blank s.
Proof.
  destruct (blank s) eqn:Hb.
  - apply trim_nil_iff in Hb. rewrite Hb. reflexivity.
  - destruct (trim s) eqn:Ht; [|reflexivity].
    apply trim_nil_iff in Ht. congruence.
Qed.

(** X15.  With a provider, [postMessage] sends no request exactly when
    the input text is white space only (the empty text included); in
    every other case the request for a signer is sent. *)
Theorem postMessage_refuses_exactly_blank env w :
  ethereum env = true ->
  (blank (message (app w)) = true ->
   sent (trace (snd (postMessage env w))) = sent (trace w)) /\
  (blank (message (app w)) = false ->
   exists later,
     sent (trace (snd (postMessage env w)))
     = later ++ Req_getSigner :: sent (trace w)).
Proof.
  intros Heth. split; intros Hb.
  - rewrite postMessage_blank by (rewrite falsy_trim_blank; exact Hb).
    reflexivity.
  - assert (Hne : falsy (trim (message (app w))) = false)
      by (rewrite falsy_trim_blank; exact Hb).
    rewrite postMessage_run by assumption. cbv zeta. cbn [snd].
    destruct (outcome (provider_getSigner env (now w))) as [signer|e];
      [|exists []; unfold postFailed; cells; reflexivity].
    destruct (outcome (contract_postMessage env _ signer _)) as [tx|e];
      [|eexists [_]; unfold postFailed; cells; reflexivity].
    destruct (outcome (tx_wait env _ tx)) as [[]|e];
      [|eexists [_; _]; unfold postFailed; cells; reflexivity].
    match goal with
    | |- context [getAllMessages env ?w0] =>
        destruct (getAllMessages_reads env w0) as (reads & Hreads & _)
    end.
    eexists (reads ++ [_; _]).
    cbn [trace withApp toasted sent]. rewrite Hreads. cells.
    rewrite <- app_assoc. reflexivity.
Qed.

Lemma postMessage_refuses_exactly_blank_witness :
  ethereum healthyEnv = true /\
  (blank (message (app blankWorld)) = true ->
   sent (trace (snd (postMessage healthyEnv blankWorld)))
   = sent (trace blankWorld)) /\
  (blank (message (app blankWorld)) = false ->
   exists later,
     sent (trace (snd (postMessage healthyEnv blankWorld)))
     = later ++ Req_getSigner :: sent (trace blankWorld)).
Proof.
  split; [reflexivity|].
  apply (postMessage_refuses_exactly_blank healthyEnv blankWorld). reflexivity.
Defined.

(* ===================================================================== *)
(** * Losing the account *)
(* ===================================================================== *)

(** X16.  The ['accountsChanged'] listener sets the account to the first
    address announced.  On an empty announcement the account becomes
    absent: the Post button, the textarea and the "My Posts" tab are
    disabled, and draft, feed and filter are kept.  With the filter on
    [mine] the list then shows the "No messages yet" placeholder whatever
    the feed holds, except while a fetch is in flight over an empty feed,
    when it shows the spinner. *)
Theorem accountsChanged_follows_wallet env (toLowerCase : jsstring -> jsstring) w wm :
  ethereum env = true ->
  filterType (app wm) = mine ->
  (forall a l,
     currentAccount (app (snd (accountsChanged env (a :: l) w))) = Some a) /\
  (let w' := snd (accountsChanged env [] w) in
   currentAccount (app w') = None /\
   submitDisabled (app w') = true /\
   textareaDisabled (app w') = true /\
   mineTabDisabled (app w') = true /\
   message (app w') = message (app w) /\
   allMessages (app w') = allMessages (app w) /\
   filterType (app w') = filterType (app w)) /\
  feedPane toLowerCase (app (snd (accountsChanged env [] wm))) =
    (if isLoadingMessages (app wm) && (List.length (allMessages (app wm)) =? 0)%nat
     then LoadingState else EmptyState).
Proof.
  intros Heth Hmine. split; [|split].
  - intros a l. rewrite accountsChanged_run, Heth. reflexivity.
  - cbv zeta. rewrite accountsChanged_run, Heth. cbn. repeat split.
  - rewrite accountsChanged_run, Heth.
    unfold feedPane, displayedMessages. cbn. rewrite Hmine.
    destruct (isLoadingMessages (app wm) && _); [reflexivity|]. cbn.
    induction (allMessages (app wm)) as [|m l IH]; [reflexivity|exact IH].
Qed.

Lemma accountsChanged_follows_wallet_witness :
  ethereum healthyEnv = true /\
  filterType (app mineSessionWorld) = mine /\
  (forall a l,
     currentAccount (app (snd (accountsChanged healthyEnv (a :: l) sessionWorld)))
     = Some a) /\
  (currentAccount (app (snd (accountsChanged healthyEnv [] sessionWorld))) = None /\
   submitDisabled (app (snd (accountsChanged healthyEnv [] sessionWorld))) = true /\
   textareaDisabled (app (snd (accountsChanged healthyEnv [] sessionWorld))) = true /\
   mineTabDisabled (app (snd (accountsChanged healthyEnv [] sessionWorld))) = true /\
   message (app (snd (accountsChanged healthyEnv [] sessionWorld)))
     = message (app sessionWorld) /\
   allMessages (app (snd (accountsChanged healthyEnv [] sessionWorld)))
     = allMessages (app sessionWorld) /\
   filterType (app (snd (accountsChanged healthyEnv [] sessionWorld)))
     = filterType (app sessionWorld)) /\
  feedPane asciiToLowerCase
    (app (snd (accountsChanged healthyEnv [] mineSessionWorld))) =
    (if isLoadingMessages (app mineSessionWorld)
        && (List.length (allMessages (app mineSessionWorld)) =? 0)%nat
     then LoadingState else EmptyState).
Proof.
  split; [reflexivity|]. split; [reflexivity|].
  apply (accountsChanged_follows_wallet healthyEnv asciiToLowerCase
           sessionWorld mineSessionWorld); reflexivity.
Defined.

(** In that session the "My Messages" pane holds the two entries of the
    connected account; once the wallet announces no account, it holds the
    placeholder. *)
Example mineSessionWorld_pane :
  feedPane asciiToLowerCase (app mineSessionWorld)
    = MessageCards [formatMessage entry2; formatMessage entry0] /\
  feedPane asciiToLowerCase
    (app (snd (accountsChanged healthyEnv [] mineSessionWorld))) = EmptyState.
Proof. split; vm_compute; reflexivity. Qed.

(* ===================================================================== *)
(** * What holds in every reachable world *)
(* ===================================================================== *)

Lemma sessionWorld_reachable : reachable healthyEnv sessionWorld.
Proof.
  unfold sessionWorld.
  eapply reach_step; [|apply step_postMessage].
  eapply reach_step; [|apply (step_type healthyEnv (lit "gm"))].
  eapply reach_step; [apply reach_initial|apply step_connectWallet].
Qed.

Lemma strandedWorld_reachable : reachable noWalletEnv strandedWorld.
Proof.
  unfold strandedWorld.
  eapply reach_step; [apply reach_initial|apply step_connectWallet].
Qed.

(** X17.  In every reachable world the feed holds at most 50 entries,
    and so does the displayed sequence. *)
Theorem reachable_feed_is_a_window env (toLowerCase : jsstring -> jsstring) w :
  reachable env w ->
  (List.length (allMessages (app w)) <= 50)%nat /\
  (List.length (displayedMessages toLowerCase (app w)) <= 50)%nat.
Proof.
  intros Hreach. pose proof (reachable_feed_bound env w Hreach) as Hfeed.
  split; [exact Hfeed|].
  unfold displayedMessages. destruct (filterType (app w)); [exact Hfeed|].
  pose proof (filter_length_le (isMine toLowerCase (currentAccount (app w)))
                (allMessages (app w))). lia.
Qed.

Lemma reachable_feed_is_a_window_witness :
  reachable healthyEnv sessionWorld /\
  (List.length (allMessages (app sessionWorld)) <= 50)%nat /\
  (List.length (displayedMessages asciiToLowerCase (app sessionWorld)) <= 50)%nat.
Proof.
  split; [exact sessionWorld_reachable|].
  apply (reachable_feed_is_a_window healthyEnv asciiToLowerCase sessionWorld).
  exact sessionWorld_reachable.
Defined.

(** X18.  In every reachable world at most one timer is pending; it is
    the one [toastTimeoutRef] holds, it is due within 3000 ms, and it is
    pending exactly while the toast is on display. *)
Theorem reachable_single_timer env w :
  reachable env w ->
  (List.length (timers w) <= 1)%nat /\
  (forall h d, In (h, d) (timers w) ->
     toastTimeoutRef w = Some h /\ (h < nextHandle w)%positive /\
     (d <= now w + 3000)%N) /\
  (show (toast (app w)) = true <-> timers w <> []).
Proof.
  intros Hreach.
  destruct (reachable_expires env w Hreach)
    as [[Hown Hfresh] (Hlen & Hshow & Hhidden)].
  split; [exact Hlen|]. split.
  - intros h d Hin.
    split; [exact (Hown h d Hin)|]. split; [exact (Hfresh h d Hin)|].
    destruct (show (toast (app w))) eqn:Hs.
    + destruct (Hshow eq_refl) as (h' & d' & Ht & Hd).
      rewrite Ht in Hin. destruct Hin as [[= <- <-]|[]]. exact Hd.
    + rewrite (Hhidden eq_refl) in Hin. destruct Hin.
  - split.
    + intros Hs. destruct (Hshow Hs) as (h & d & -> & _). discriminate.
    + intros Hne. destruct (show (toast (app w))) eqn:Hs; [reflexivity|].
      elim Hne. apply Hhidden. reflexivity.
Qed.

Lemma reachable_single_timer_witness :
  reachable healthyEnv sessionWorld /\
  (List.length (timers sessionWorld) <= 1)%nat /\
  (forall h d, In (h, d) (timers sessionWorld) ->
     toastTimeoutRef sessionWorld = Some h /\
     (h < nextHandle sessionWorld)%positive /\
     (d <= now sessionWorld + 3000)%N) /\
  (show (toast (app sessionWorld)) = true <-> timers sessionWorld <> []).
Proof.
  split; [exact sessionWorld_reachable|].
  apply (reachable_single_timer healthyEnv sessionWorld).
  exact sessionWorld_reachable.
Defined.

(** X19.  From every reachable world, 3000 ms without any activity
    leave no toast on display and no timer pending. *)
Theorem reachable_toast_expires env w (dt : N) :
  reachable env w ->
  (3000 <= dt)%N ->
  show (toast (app (elapse dt w))) = false /\
  timers (elapse dt w) = [].
Proof.
  intros Hreach Hdt.
  destruct (reachable_expires env w Hreach) as [_ (Hlen & Hshow & Hhidden)].
  destruct (show (toast (app w))) eqn:Hs.
  - destruct (Hshow eq_refl) as (h & d & Ht & Hd).
    destruct (elapse_after_due w h d dt Ht ltac:(lia)) as [-> ->].
    split; reflexivity.
  - unfold elapse. rewrite runUntil_app. unfold runUntil; cbn [timers].
    rewrite (Hhidden eq_refl). cbn. split; [exact Hs|reflexivity].
Qed.

Lemma reachable_toast_expires_witness :
  reachable healthyEnv sessionWorld /\
  (3000 <= 3000)%N /\
  show (toast (app (elapse 3000 sessionWorld))) = false /\
  timers (elapse 3000 sessionWorld) = [].
Proof.
  assert (Hdt : (3000 <= 3000)%N) by lia.
  split; [exact sessionWorld_reachable|]. split; [exact Hdt|].
  apply (reachable_toast_expires healthyEnv sessionWorld 3000%N);
    [exact sessionWorld_reachable | exact Hdt].
Defined.

(** X20.  A handler that is activated while both guard flags are down
    and runs to completion on its own, with the length of the log within
    the range in which Numbers are exact, leaves both flags down,
    whichever handler it is and however its requests settle.  At that
    point the Refresh button is enabled, the spinner is not shown, and
    Post is disabled only for want of an account or of a text that is not
    blank. *)
Theorem handlers_leave_flags_down env (toLowerCase : jsstring -> jsstring)
    (h : M unit) addr accounts w :
  safeCounts env ->
  In h [connectWallet env; checkIfWalletIsConnected env; getOwner env;
        getAllMessages env; postMessage env; copyAddress addr;
        accountsChanged env accounts] ->
  isSubmitting (app w) = false ->
  isLoadingMessages (app w) = false ->
  let w' := snd (h w) in
  isSubmitting (app w') = false /\
  isLoadingMessages (app w') = false /\
  refreshDisabled (app w') = false /\
  feedPane toLowerCase (app w') <> LoadingState /\
  textareaDisabled (app w') = mineTabDisabled (app w') /\
  submitDisabled (app w') = mineTabDisabled (app w') || blank (message (app w')).
Proof.
  intros Hsafe Hin Hs0 Hl0. cbv zeta.
  assert (Hstep : Step env w (snd (h w))).
  { cbn [In] in Hin.
    destruct Hin as [<-|[<-|[<-|[<-|[<-|[<-|[<-|[]]]]]]]].
    - apply step_connectWallet.
    - apply step_checkIfWalletIsConnected.
    - apply step_getOwner.
    - apply step_getAllMessages.
    - apply step_postMessage.
    - apply step_copyAddress.
    - apply step_accountsChanged. }
  destruct (Step_flags env w (snd (h w)) Hstep (conj Hs0 Hl0)) as [Hs Hl].
  split; [exact Hs|]. split; [exact Hl|]. split; [exact Hl|]. split; [|split].
  - unfold feedPane. rewrite Hl. cbn [andb].
    destruct (displayedMessages toLowerCase (app (snd (h w)))); discriminate.
  - unfold textareaDisabled. rewrite Hs. apply orb_false_r.
  - unfold submitDisabled, mineTabDisabled. rewrite Hs, falsy_trim_blank.
    rewrite orb_false_r. reflexivity.
Qed.

Lemma handlers_leave_flags_down_witness :
  safeCounts flakyEnv /\
  In (postMessage flakyEnv)
     [connectWallet flakyEnv; checkIfWalletIsConnected flakyEnv;
      getOwner flakyEnv; getAllMessages flakyEnv; postMessage flakyEnv;
      copyAddress alice; accountsChanged flakyEnv []] /\
  isSubmitting (app connectedWorld) = false /\
  isLoadingMessages (app connectedWorld) = false /\
  isSubmitting (app (snd (postMessage flakyEnv connectedWorld))) = false /\
  isLoadingMessages (app (snd (postMessage flakyEnv connectedWorld))) = false /\
  refreshDisabled (app (snd (postMessage flakyEnv connectedWorld))) = false /\
  feedPane asciiToLowerCase (app (snd (postMessage flakyEnv connectedWorld)))
    <> LoadingState /\
  textareaDisabled (app (snd (postMessage flakyEnv connectedWorld)))
    = mineTabDisabled (app (snd (postMessage flakyEnv connectedWorld))) /\
  submitDisabled (app (snd (postMessage flakyEnv connectedWorld)))
    = mineTabDisabled (app (snd (postMessage flakyEnv connectedWorld)))
      || blank (message (app (snd (postMessage flakyEnv connectedWorld)))).
Proof.
  assert (Hsafe : safeCounts flakyEnv) by apply demoEnv_safeCounts.
  assert (Hin : In (postMessage flakyEnv)
     [connectWallet flakyEnv; checkIfWalletIsConnected flakyEnv;
      getOwner flakyEnv; getAllMessages flakyEnv; postMessage flakyEnv;
      copyAddress alice; accountsChanged flakyEnv []]).
  { cbn [In]. right. right. right. right. left. reflexivity. }
  split; [exact Hsafe|]. split; [exact Hin|].
  split; [reflexivity|]. split; [reflexivity|].
  apply (handlers_leave_flags_down flakyEnv asciiToLowerCase
           (postMessage flakyEnv) alice [] connectedWorld);
    [exact Hsafe | exact Hin | reflexivity | reflexivity].
Defined.

(** X21.  Without a provider nothing is ever sent: in every reachable
    world the trace holds no request, account and owner are absent, the
    feed is empty and the Post button is disabled. *)
Theorem reachable_without_provider env w :
  ethereum env = false ->
  reachable env w ->
  sent (trace w) = [] /\
  currentAccount (app w) = None /\
  owner (app w) = None /\
  allMessages (app w) = [] /\
  submitDisabled (app w) = true.
Proof.
  intros Heth Hreach.
  assert (H : sent (trace w) = [] /\ currentAccount (app w) = None /\
              owner (app w) = None /\ allMessages (app w) = []).
  { induction Hreach as [|w w' _ IH Hstep]; [repeat split|].
    destruct IH as (Hsent & Hacct & Howner & Hfeed).
    destruct Hstep.
    - rewrite connectWallet_absent by assumption. cbn. auto.
    - rewrite checkIfWalletIsConnected_absent by assumption. cbn. auto.
    - rewrite getOwner_absent by assumption. cbn. auto.
    - rewrite getAllMessages_absent by assumption. cbn. auto.
    - destruct (falsy (trim (message (app w)))) eqn:Hb.
      + rewrite postMessage_blank by assumption. cbn. auto.
      + rewrite postMessage_absent by assumption. cbn. auto.
    - rewrite copyAddress_run. cbn. auto.
    - rewrite accountsChanged_run, Heth. auto.
    - cbn. auto.
    - cbn. auto.
    - unfold elapse. cells. auto. }
  destruct H as (Hsent & Hacct & Howner & Hfeed).
  repeat split; try assumption.
  unfold submitDisabled. rewrite Hacct. reflexivity.
Qed.

Lemma reachable_without_provider_witness :
  ethereum noWalletEnv = false /\
  reachable noWalletEnv strandedWorld /\
  sent (trace strandedWorld) = [] /\
  currentAccount (app strandedWorld) = None /\
  owner (app strandedWorld) = None /\
  allMessages (app strandedWorld) = [] /\
  submitDisabled (app strandedWorld) = true.
Proof.
  split; [reflexivity|]. split; [exact strandedWorld_reachable|].
  apply (reachable_without_provider noWalletEnv strandedWorld);
    [reflexivity | exact strandedWorld_reachable].
Defined.


(** X22.  When the transaction is confirmed but the refresh that follows
    fails at the count read, [postMessage] emits the error toast of the
    refresh and then the success toast, which replaces it: the success
    toast is the one on display, the input text is empty and the feed is
    the old one. *)
Theorem postMessage_success_masks_refresh_error env w signer tx e :
  ethereum env = true ->
  falsy (trim (message (app w))) = false ->
  let rs := provider_getSigner env (now w) in
  let t1 := (now w + latency rs)%N in
  let rp := contract_postMessage env t1 signer (message (app w)) in
  let t2 := (t1 + latency rp)%N in
  let rw := tx_wait env t2 tx in
  let t3 := (t2 + latency rw)%N in
  outcome rs = Fulfilled signer ->
  outcome rp = Fulfilled tx ->
  outcome rw = Fulfilled tt ->
  outcome (contract_getMessagesCount env t3) = Rejected e ->
  let w' := snd (postMessage env w) in
  toasts (trace w') =
    (success, lit "Message posted successfully!")
    :: (error, lit "Failed to fetch messages")
    :: (loading, lit "Transaction submitted. Waiting for confirmation...")
    :: toasts (trace w) /\
  toast (app w') =
    {| show := true; type := success;
       msg := lit "Message posted successfully!" |} /\
  allMessages (app w') = allMessages (app w) /\
  message (app w') = lit "".
Proof.
  cbv zeta. intros Heth Hne Hs Hp Hw Hc.
  rewrite postMessage_run by assumption. cbv zeta. cbn [snd].
  rewrite Hs, Hp, Hw.
  match goal with
  | |- context [getAllMessages env ?w0] => remember w0 as W eqn:HW
  end.
  assert (Hnow : now W =
    (now w + latency (provider_getSigner env (now w))
     + latency (contract_postMessage env
         (now w + latency (provider_getSigner env (now w))) signer
         (message (app w)))
     + latency (tx_wait env
         (now w + latency (provider_getSigner env (now w))
          + latency (contract_postMessage env
              (now w + latency (provider_getSigner env (now w))) signer
              (message (app w)))) tx))%N).
  { rewrite HW. cbn [now withApp]. apply now_runUntil_later.
    cbn [now logged toasted]. apply now_runUntil_later.
    cbn [now logged]. apply now_runUntil_later. reflexivity. }
  assert (HtW : toasts (trace W) =
    (loading, lit "Transaction submitted. Waiting for confirmation...")
    :: toasts (trace w)) by (rewrite HW; reflexivity).
  assert (HaW : allMessages (app W) = allMessages (app w))
    by (rewrite HW; cells; reflexivity).
  assert (HmW : message (app W) = lit "") by (rewrite HW; reflexivity).
  clear HW.
  rewrite (getAllMessages_run env W Heth). cbv zeta. cbn [snd].
  rewrite Hnow, Hc. unfold fetchFailed.
  split; [cells; rewrite HtW; reflexivity|].
  split; [reflexivity|].
  split; cells; assumption.
Qed.

Lemma postMessage_success_masks_refresh_error_witness :
  ethereum staleEnv = true /\
  falsy (trim (message (app readyWorld))) = false /\
  outcome (provider_getSigner staleEnv 0%N) = Fulfilled alice /\
  outcome (contract_postMessage staleEnv 5%N alice (lit "gm")) = Fulfilled 77%N /\
  outcome (tx_wait staleEnv 1005%N 77%N) = Fulfilled tt /\
  outcome (contract_getMessagesCount staleEnv 13005%N) = Rejected (Err (-32000)) /\
  toasts (trace (snd (postMessage staleEnv readyWorld))) =
    (success, lit "Message posted successfully!")
    :: (error, lit "Failed to fetch messages")
    :: (loading, lit "Transaction submitted. Waiting for confirmation...")
    :: toasts (trace readyWorld) /\
  toast (app (snd (postMessage staleEnv readyWorld))) =
    {| show := true; type := success;
       msg := lit "Message posted successfully!" |} /\
  allMessages (app (snd (postMessage staleEnv readyWorld)))
    = allMessages (app readyWorld) /\
  message (app (snd (postMessage staleEnv readyWorld))) = lit "".
Proof.
  repeat (split; [reflexivity|]).
  apply (postMessage_success_masks_refresh_error staleEnv readyWorld alice 77%N
           (Err (-32000))); reflexivity.
Defined.
